(** * websockets/http.py: HTTP parsing utilities for the WebSocket handshake

    A shallow embedding of [read_line], [read_message], [read_request] and
    [read_response], together with the Python built-ins and the part of the
    standard [email] package they call, and the properties of the readers.

    Python values are modelled as follows.
    - [bytes] is a list of [Byte.byte];
    - [str] is a list of Unicode code points (numbers in [N]);
    - a raised exception is a value of [error], computations that may raise
      return a [result];
    - the stream is any type with a [readline] operation; the coroutines
      thread its state explicitly. *)

From Stdlib.Strings Require Import String Byte.
From Stdlib Require Import List NArith ZArith Bool Lia.
Import ListNotations.

Set Implicit Arguments.

(** ** Python built-ins *)

Module Py.

Definition bytes := list byte.
Definition str := list N.

Definition CR : byte := x0d.
Definition LF : byte := x0a.
Definition CRLF : bytes := [CR; LF].

(** A bytes literal, [b'...'] without escapes. *)
Definition b (s : string) : bytes := list_byte_of_string s.

(** A str literal of ASCII characters. *)
Definition u (s : string) : str := map Byte.to_N (list_byte_of_string s).

Fixpoint eqb_list {A} (eqb : A -> A -> bool) (xs ys : list A) : bool :=
  match xs, ys with
  | [], [] => true
  | x :: xs', y :: ys' => eqb x y && eqb_list eqb xs' ys'
  | _, _ => false
  end.

Definition bytes_eqb : bytes -> bytes -> bool := eqb_list Byte.eqb.
Definition str_eqb : str -> str -> bool := eqb_list N.eqb.

(** [s.endswith(suffix)] *)
Definition endswith {A} (eqb : A -> A -> bool) (s suffix : list A) : bool :=
  eqb_list eqb (skipn (length s - length suffix) s) suffix.

(** [s.startswith(prefix)] *)
Definition startswith {A} (eqb : A -> A -> bool) (s prefix : list A) : bool :=
  eqb_list eqb (firstn (length prefix) s) prefix.

(** [s[:-2]] *)
Definition drop_last2 {A} (s : list A) : list A := firstn (length s - 2) s.

(** *** [bytes.decode()]: strict UTF-8

    The decoder rejects stray continuation bytes, truncated sequences,
    overlong encodings, surrogates and code points above U+10FFFF. *)

Definition is_cont (c : N) : bool := ((0x80 <=? c) && (c <=? 0xBF))%N.
Definition in_range (lo hi c : N) : bool := ((lo <=? c) && (c <=? hi))%N.

Fixpoint utf8_decode (bs : bytes) : option str :=
  match bs with
  | [] => Some []
  | b0 :: r0 =>
    let c0 := Byte.to_N b0 in
    if (c0 <? 0x80)%N then option_map (cons c0) (utf8_decode r0)
    else if (c0 <? 0xC2)%N then None
    else if (c0 <? 0xE0)%N then
      match r0 with
      | b1 :: r1 =>
        let c1 := Byte.to_N b1 in
        if is_cont c1
        then option_map (cons ((c0 - 0xC0) * 64 + (c1 - 0x80))%N)
                        (utf8_decode r1)
        else None
      | _ => None
      end
    else if (c0 <? 0xF0)%N then
      match r0 with
      | b1 :: b2 :: r2 =>
        let c1 := Byte.to_N b1 in
        let c2 := Byte.to_N b2 in
        let lo := if (c0 =? 0xE0)%N then 0xA0%N else 0x80%N in
        let hi := if (c0 =? 0xED)%N then 0x9F%N else 0xBF%N in
        if in_range lo hi c1 && is_cont c2
        then option_map
               (cons ((c0 - 0xE0) * 4096 + (c1 - 0x80) * 64 + (c2 - 0x80))%N)
               (utf8_decode r2)
        else None
      | _ => None
      end
    else if (c0 <? 0xF5)%N then
      match r0 with
      | b1 :: b2 :: b3 :: r3 =>
        let c1 := Byte.to_N b1 in
        let c2 := Byte.to_N b2 in
        let c3 := Byte.to_N b3 in
        let lo := if (c0 =? 0xF0)%N then 0x90%N else 0x80%N in
        let hi := if (c0 =? 0xF4)%N then 0x8F%N else 0xBF%N in
        if in_range lo hi c1 && is_cont c2 && is_cont c3
        then option_map
               (cons ((c0 - 0xF0) * 262144 + (c1 - 0x80) * 4096
                      + (c2 - 0x80) * 64 + (c3 - 0x80))%N)
               (utf8_decode r3)
        else None
      | _ => None
      end
    else None
  end.

(** *** Whitespace, [str.isspace] on one character

    The ASCII table of CPython ([\t \n \v \f \r], [\x1c]-[\x1f], space) and
    the non-ASCII characters with bidirectional type WS, B or S or of
    category Zs. *)

Definition isspace (c : N) : bool :=
  (in_range 0x09 0x0D c || in_range 0x1C 0x20 c
   || (c =? 0x85) || (c =? 0xA0) || (c =? 0x1680)
   || in_range 0x2000 0x200A c || (c =? 0x2028) || (c =? 0x2029)
   || (c =? 0x202F) || (c =? 0x205F) || (c =? 0x3000))%N.

(** *** [str.split(None, maxsplit)]

    CPython's [split_whitespace]: up to [maxsplit] times, skip whitespace
    and cut one run of non-whitespace; then, if something is left, skip
    whitespace once more and keep the whole remainder as the last field. *)

Fixpoint skip_space (s : str) : str :=
  match s with
  | c :: r => if isspace c then skip_space r else s
  | [] => []
  end.

Fixpoint span_word (s : str) : str * str :=
  match s with
  | c :: r =>
    if isspace c then ([], s)
    else let (w, rest) := span_word r in (c :: w, rest)
  | [] => ([], [])
  end.

Fixpoint split_None (maxsplit : nat) (s : str) : list str :=
  match skip_space s with
  | [] => []
  | c :: r =>
    match maxsplit with
    | O => [c :: r]
    | S m => let (w, rest) := span_word (c :: r) in w :: split_None m rest
    end
  end.

(** *** [int(s)] for a string [s], base 10

    As CPython 3.11 does it.  The string is first brought to ASCII:
    a character of category Nd (a decimal digit of any script) becomes the
    ASCII digit of its value, a whitespace character from U+007F on
    becomes a space, any other character from U+007F on becomes [?], and
    the characters below U+007F are kept.  Then the ASCII whitespace
    ([\t \n \v \f \r] and the space, but not [\x1c]-[\x1f]) around the
    number is skipped, one sign is allowed, and the digits may be grouped
    by single underscores (since Python 3.6).  A number of more than
    [int_max_str_digits] digits is refused, with a [ValueError] as well. *)

(** The digits zero of the scripts of Unicode 14.0, the database of
    Python 3.11: each is followed by the digits one to nine. *)
Definition decimal_zeros : list N :=
  [
   0x30; 0x660; 0x6F0; 0x7C0; 0x966; 0x9E6; 0xA66; 0xAE6;
   0xB66; 0xBE6; 0xC66; 0xCE6; 0xD66; 0xDE6; 0xE50; 0xED0;
   0xF20; 0x1040; 0x1090; 0x17E0; 0x1810; 0x1946; 0x19D0; 0x1A80;
   0x1A90; 0x1B50; 0x1BB0; 0x1C40; 0x1C50; 0xA620; 0xA8D0; 0xA900;
   0xA9D0; 0xA9F0; 0xAA50; 0xABF0; 0xFF10; 0x104A0; 0x10D30; 0x11066;
   0x110F0; 0x11136; 0x111D0; 0x112F0; 0x11450; 0x114D0; 0x11650; 0x116C0;
   0x11730; 0x118E0; 0x11950; 0x11C50; 0x11D50; 0x11DA0; 0x16A60; 0x16AC0;
   0x16B50; 0x1D7CE; 0x1D7D8; 0x1D7E2; 0x1D7EC; 0x1D7F6; 0x1E140; 0x1E2F0;
   0x1E950; 0x1FBF0
  ]%N.

Fixpoint decimal_in (zeros : list N) (c : N) : option N :=
  match zeros with
  | [] => None
  | z :: more =>
    if ((z <=? c) && (c <=? z + 9))%N then Some (c - z)%N
    else decimal_in more c
  end.

(** [Py_UNICODE_TODECIMAL]: the value of a decimal digit. *)
Definition decimal (c : N) : option N := decimal_in decimal_zeros c.

(** [sys.get_int_max_str_digits()], as the interpreter starts. *)
Definition int_max_str_digits : nat := 4300.

(** The number of digits of a string. *)
Definition count_decimal (s : str) : nat :=
  length (filter (fun c => match decimal c with
                           | Some _ => true
                           | None => false
                           end) s).

(** An ASCII digit. *)
Definition is_digit (c : N) : bool := in_range 0x30 0x39 c.
Definition underscore : N := 0x5F.

(** The whitespace that [int] skips around a number. *)
Definition int_space (c : N) : bool := isspace c && negb (in_range 0x1C 0x1F c).

Fixpoint skip_int_space (s : str) : str :=
  match s with
  | c :: r => if int_space c then skip_int_space r else s
  | [] => []
  end.

Definition rstrip_int_space (s : str) : str := rev (skip_int_space (rev s)).

(** [digits acc prev_us s]: the value of the digit string [s] continuing
    the accumulator [acc]; [prev_us] tells that the previous character was
    an underscore. *)
Fixpoint digits (acc : Z) (prev_us : bool) (s : str) : option Z :=
  match s with
  | [] => if prev_us then None else Some acc
  | c :: r =>
    match decimal c with
    | Some d => digits (acc * 10 + Z.of_N d) false r
    | None =>
      if (c =? underscore)%N then
        if prev_us then None else digits acc true r
      else None
    end
  end.

Definition int (s : str) : option Z :=
  let s := rstrip_int_space (skip_int_space s) in
  let (neg, s) :=
    match s with
    | c :: r =>
      if (c =? 0x2B)%N then (false, r)
      else if (c =? 0x2D)%N then (true, r)
      else (false, s)
    | [] => (false, s)
    end in
  match s with
  | c :: _ =>
    match decimal c with
    | Some _ =>
      match digits 0 false s with
      | Some v =>
        if (int_max_str_digits <? count_decimal s)%nat then None
        else Some (if neg then (- v)%Z else v)
      | None => None
      end
    | None => None
    end
  | [] => None
  end.

(** *** [str.lower], [str.strip]

    [lower] is used on header names and on the value of Content-Type, which
    hold ASCII characters and, for the bytes above 127 of a value, U+FFFD:
    on these only the ASCII capitals change. *)

Definition lower_char (c : N) : N :=
  if in_range 0x41 0x5A c then (c + 32)%N else c.

Definition lower (s : str) : str := map lower_char s.

Definition strip (s : str) : str := rev (skip_space (rev (skip_space s))).

End Py.

Import Py.

(** ** Exceptions and the reader monad *)

(** The exceptions the readers raise, named as the specification names them.
    In the source all the [ValueError]s differ by their message only. *)
Inductive error : Type :=
| LineTooLong         (* ValueError("Line too long") *)
| MissingTerminator   (* ValueError("Line without CRLF") *)
| TooManyHeaders      (* ValueError("Too many headers") *)
| UnsupportedMethod   (* ValueError("Unsupported method") *)
| UnsupportedVersion  (* ValueError("Unsupported HTTP version") *)
| InvalidStatus       (* ValueError raised by int() *)
| UnpackError         (* ValueError raised by the unpacking of a sequence
                         of the wrong length *)
| UnicodeDecodeError  (* raised by bytes.decode() *)
| AssertionError      (* a failed assert of the email package *)
| IndexError.         (* an index out of range *)

Inductive result (A : Type) : Type :=
| Ok (a : A)
| Raise (e : error).
Arguments Ok {A} a.
Arguments Raise {A} e.

(** The stream: an object with a [readline] coroutine.  [readline s] is the
    next line and the stream after it has been consumed. *)
Class StreamReader (S : Type) := readline : S -> bytes * S.

(** A coroutine over the stream: it returns or raises, and leaves the
    stream where its reads stopped. *)
Definition M (S A : Type) : Type := S -> result A * S.

Definition ret {S A} (a : A) : M S A := fun s => (Ok a, s).
Definition raise {S A} (e : error) : M S A := fun s => (Raise e, s).
Definition bind {S A B} (m : M S A) (k : A -> M S B) : M S B :=
  fun s =>
    match m s with
    | (Ok a, s') => k a s'
    | (Raise e, s') => (Raise e, s')
    end.
Definition lift {S A} (r : result A) : M S A := fun s => (r, s).

Notation "x <- m ;; k" := (bind m (fun x => k))
  (at level 61, m at next level, right associativity).
Notation "' p <- m ;; k" := (bind m (fun x => let p := x in k))
  (at level 61, p pattern, m at next level, right associativity).

Definition rbind {A B} (r : result A) (k : A -> result B) : result B :=
  match r with
  | Ok a => k a
  | Raise e => Raise e
  end.

(** ** The standard library's header parser

    [email.parser.BytesHeaderParser().parse(fp)] as [read_message] calls it:
    the default [compat32] policy and [headersonly=True].  The parser wraps
    the buffer in a [TextIOWrapper] (ASCII with [surrogateescape], universal
    newlines), feeds the text to [email.feedparser.FeedParser] and returns
    the message object, which is modelled by the four attributes the parser
    sets. *)

Module Email.

Local Open Scope N_scope.

Inductive defect : Type :=
| MissingHeaderBodySeparatorDefect
| FirstHeaderLineIsContinuationDefect (line : str)
| MisplacedEnvelopeHeaderDefect (line : str)
| InvalidHeaderDefect             (* "Missing header name." *)
| MultipartInvariantViolationDefect.

Record Message : Type := mkMessage {
  _unixfrom : option str;
  _headers : list (str * str);
  _payload : str;
  defects : list defect
}.

Definition set_raw (m : Message) (nv : str * str) : Message :=
  mkMessage (_unixfrom m) (_headers m ++ [nv]) (_payload m) (defects m).
Definition set_unixfrom (m : Message) (line : str) : Message :=
  mkMessage (Some line) (_headers m) (_payload m) (defects m).
Definition set_payload (m : Message) (p : str) : Message :=
  mkMessage (_unixfrom m) (_headers m) p (defects m).
Definition add_defect (m : Message) (d : defect) : Message :=
  mkMessage (_unixfrom m) (_headers m) (_payload m) (defects m ++ [d]).

(** Decoding with [encoding='ascii', errors='surrogateescape']: a byte
    above 127 becomes the lone surrogate U+DC80 + (byte - 128). *)
Definition surrogateescape (c : byte) : N :=
  let n := Byte.to_N c in if n <? 0x80 then n else 0xDC00 + n.

Definition ascii_decode (bs : bytes) : str := map surrogateescape bs.

(** Universal newlines on reading: [\r\n] and a lone [\r] become [\n]. *)
Fixpoint universal_newlines (s : str) : str :=
  match s with
  | [] => []
  | c :: r =>
    if c =? 13 then
      match r with
      | c' :: r' =>
        if c' =? 10 then 10 :: universal_newlines r'
        else 10 :: universal_newlines r
      | [] => [10]
      end
    else c :: universal_newlines r
  end.

(** The lines of the text, each with its newline; the text holds no [\r]
    any more, so that [\n] is the only line boundary left. *)
Fixpoint readlines (s : str) : list str :=
  match s with
  | [] => []
  | c :: r =>
    if c =? 10 then [c] :: readlines r
    else match readlines r with
         | [] => [[c]]
         | l :: ls => (c :: l) :: ls
         end
  end.

(** [headerRE = '^(From |[\041-\071\073-\176]*:|[\t ])'] *)
Definition is_ftext (c : N) : bool := in_range 33 57 c || in_range 59 126 c.

Fixpoint ftext_colon (s : str) : bool :=
  match s with
  | c :: r => if c =? 58 then true else if is_ftext c then ftext_colon r else false
  | [] => false
  end.

Definition is_wsp (c : N) : bool := (c =? 32) || (c =? 9).

Definition starts_wsp (line : str) : bool :=
  match line with
  | c :: _ => is_wsp c
  | [] => false
  end.

Definition headerRE (line : str) : bool :=
  startswith N.eqb line (u "From ") || ftext_colon line || starts_wsp line.

(** [NLCRE = '\r\n|\r|\n'], matched at the start of the line *)
Definition is_nl (c : N) : bool := (c =? 13) || (c =? 10).

Definition NLCRE (line : str) : bool :=
  match line with
  | c :: _ => is_nl c
  | [] => false
  end.

(** [NLCRE_eol = '(\r\n|\r|\n)\Z']: the line without its final newline *)
Definition strip_eol (line : str) : str :=
  if endswith N.eqb line [13; 10] then drop_last2 line
  else if endswith N.eqb line [13] || endswith N.eqb line [10]
       then firstn (length line - 1) line
       else line.

Fixpoint lstrip (chars : N -> bool) (s : str) : str :=
  match s with
  | c :: r => if chars c then lstrip chars r else s
  | [] => []
  end.

Definition rstrip (chars : N -> bool) (s : str) : str :=
  rev (lstrip chars (rev s)).

(** [s.split(':', 1)] when it has two parts *)
Fixpoint split_colon (s : str) : option (str * str) :=
  match s with
  | [] => None
  | c :: r =>
    if c =? 58 then Some ([], r)
    else match split_colon r with
         | Some (n, v) => Some (c :: n, v)
         | None => None
         end
  end.

(** [line.find(':')] *)
Fixpoint find_colon (s : str) : option nat :=
  match s with
  | [] => None
  | c :: r => if c =? 58 then Some O else option_map Datatypes.S (find_colon r)
  end.

(** [Compat32.header_source_parse]:
<<
    name, value = sourcelines[0].split(':', 1)
    value = value.lstrip(' \t') + ''.join(sourcelines[1:])
    return (name, value.rstrip('\r\n'))
>> *)
Definition header_source_parse (sourcelines : list str) : result (str * str) :=
  match sourcelines with
  | [] => Raise IndexError
  | first :: more =>
    match split_colon first with
    | None => Raise UnpackError
    | Some (name, value) =>
      Ok (name, rstrip is_nl (lstrip is_wsp value ++ concat more))
    end
  end.

(** [if lastheader:] store the header that [header_source_parse] makes of
    [lastvalue], with [set_raw]. *)
Definition flush (lastheader : str) (lastvalue : list str) (cur : Message)
  : result Message :=
  match lastheader with
  | [] => Ok cur
  | _ => rbind (header_source_parse lastvalue) (fun nv => Ok (set_raw cur nv))
  end.

(** [FeedParser._parse_headers(lines)]; [lineno] counts the lines done and
    [nlines] is [len(lines)] of the whole list.  The result is the message
    and the line pushed back on the input, if any. *)
Fixpoint _parse_headers (lineno nlines : nat) (lines : list str)
    (lastheader : str) (lastvalue : list str) (cur : Message)
  : result (Message * list str) :=
  match lines with
  | [] => rbind (flush lastheader lastvalue cur) (fun cur => Ok (cur, []))
  | line :: rest =>
    let next := _parse_headers (Datatypes.S lineno) nlines rest in
    match line with
    | [] => Raise IndexError
    | c0 :: _ =>
      if is_wsp c0 then
        match lastheader with
        | [] => next lastheader lastvalue
                  (add_defect cur (FirstHeaderLineIsContinuationDefect line))
        | _ => next lastheader (lastvalue ++ [line]) cur
        end
      else
        rbind (flush lastheader lastvalue cur) (fun cur =>
        let '(lastheader, lastvalue) :=
          match lastheader with
          | [] => (lastheader, lastvalue)
          | _ => ([], [])
          end in
        if startswith N.eqb line (u "From ") then
          if Nat.eqb lineno 0 then
            next lastheader lastvalue (set_unixfrom cur (strip_eol line))
          else if Nat.eqb lineno (nlines - 1) then
            Ok (cur, [line])
          else
            next lastheader lastvalue
              (add_defect cur (MisplacedEnvelopeHeaderDefect line))
        else
          match find_colon line with
          | Some O => next lastheader lastvalue (add_defect cur InvalidHeaderDefect)
          | Some i => next (firstn i line) [line] cur
          | None => Raise AssertionError
          end)
    end
  end.

(** The header loop of [FeedParser._parsegen]: the lines kept as headers,
    the lines left on the input, and the defect of a missing separator. *)
Fixpoint header_section (lines : list str) : list str * list str * list defect :=
  match lines with
  | [] => ([], [], [])
  | line :: rest =>
    if headerRE line then
      let '(hs, rest', ds) := header_section rest in (line :: hs, rest', ds)
    else if NLCRE line then ([], rest, [])
    else ([], line :: rest, [MissingHeaderBodySeparatorDefect])
  end.

(** [FeedParser._parsegen] with [_headersonly] set, on all the lines. *)
Definition _parsegen (lines : list str) : result Message :=
  let '(hs, rest, ds) := header_section lines in
  rbind (_parse_headers 0 (length hs) hs [] [] (mkMessage None [] [] ds))
    (fun '(cur, unread) => Ok (set_payload cur (concat (unread ++ rest)))).

(** [Message.get(name)] under the [compat32] policy, as a string: the
    value of the first header of that name, whatever the case of the
    letters.  A value that holds surrogates is returned as a [Header]
    object with the charset unknown-8bit, whose [str()] has U+FFFD in
    their place. *)
Definition sanitize (value : str) : str :=
  map (fun c => if in_range 0xDC80 0xDCFF c then 0xFFFD else c) value.

Fixpoint get_in (headers : list (str * str)) (name : str) : option str :=
  match headers with
  | [] => None
  | (k, v) :: more =>
    if str_eqb (lower k) name then Some (sanitize v) else get_in more name
  end.

Definition get (m : Message) (name : str) : option str :=
  get_in (_headers m) (lower name).

(** [s.partition(sep)[0]]: what comes before the first [sep]. *)
Fixpoint before (sep : N) (s : str) : str :=
  match s with
  | [] => []
  | c :: r => if c =? sep then [] else c :: before sep r
  end.

(** [s.count(c)] *)
Definition count (c : N) (s : str) : nat :=
  length (filter (N.eqb c) s).

(** [Message.get_content_type()] of a message that is no part of a
    multipart/digest: the default type is text/plain. *)
Definition get_content_type (m : Message) : str :=
  match get m (u "content-type") with
  | None => u "text/plain"
  | Some value =>
    let ctype := lower (strip (before 59 value)) in
    if Nat.eqb (count 47 ctype) 1 then ctype else u "text/plain"
  end.

(** [Message.get_content_maintype()] *)
Definition get_content_maintype (m : Message) : str :=
  before 47 (get_content_type m).

(** The end of [FeedParser.close()]: the payload of the message is a
    string, never a list of parts, so that a Content-Type of main type
    multipart is a defect. *)
Definition close (root : Message) : Message :=
  if str_eqb (get_content_maintype root) (u "multipart")
  then add_defect root MultipartInvariantViolationDefect
  else root.

(** [BytesHeaderParser().parse(fp)] on a buffer holding [raw] *)
Definition parse (raw : bytes) : result Message :=
  rbind (_parsegen (readlines (universal_newlines (ascii_decode raw))))
    (fun root => Ok (close root)).

End Email.

(** ** The source: constants and [read_line] *)

Definition MAX_HEADERS : nat := 256.
Definition MAX_LINE : nat := 4096.

Section Readers.

Context {S : Type} {stream : StreamReader S}.

(** [read_line(stream)] *)
Definition read_line : M S bytes :=
  fun s =>
    let (line, s') := readline s in
    if MAX_LINE <? length line then (Raise LineTooLong, s')
    else if negb (endswith Byte.eqb line CRLF) then (Raise MissingTerminator, s')
    else (Ok line, s').

(** The [for num in range(MAX_HEADERS): ... else: raise] loop of
    [read_message]; [n] iterations are left and [header_lines] is what has
    been written to the buffer. *)
Fixpoint read_headers (n : nat) (header_lines : bytes) : M S bytes :=
  match n with
  | O => raise TooManyHeaders
  | Datatypes.S n' =>
    header_line <- read_line ;;
    let header_lines := header_lines ++ header_line in
    if bytes_eqb header_line CRLF then ret header_lines
    else read_headers n' header_lines
  end.

(** [read_message(stream)] *)
Definition read_message : M S (bytes * Email.Message) :=
  start_line <- read_line ;;
  header_lines <- read_headers MAX_HEADERS [] ;;
  headers <- lift (Email.parse header_lines) ;;
  ret (start_line, headers).

(** [bytes.decode()] *)
Definition decode (bs : bytes) : result str :=
  match utf8_decode bs with
  | Some s => Ok s
  | None => Raise UnicodeDecodeError
  end.

(** [a, b, c = fields] *)
Definition unpack3 {A} (fields : list A) : result (A * A * A) :=
  match fields with
  | [a; b; c] => Ok (a, b, c)
  | _ => Raise UnpackError
  end.

(** [int(status)] *)
Definition to_int (status : str) : result Z :=
  match int status with
  | Some n => Ok n
  | None => Raise InvalidStatus
  end.

(** [read_request(stream)] *)
Definition read_request : M S (str * Email.Message) :=
  ' (request_line, headers) <- read_message ;;
  text <- lift (decode (drop_last2 request_line)) ;;
  ' (method, uri, version) <- lift (unpack3 (split_None 2 text)) ;;
  if negb (str_eqb method (u "GET")) then raise UnsupportedMethod
  else if negb (str_eqb version (u "HTTP/1.1")) then raise UnsupportedVersion
  else ret (uri, headers).

(** [read_response(stream)] *)
Definition read_response : M S (Z * Email.Message) :=
  ' (status_line, headers) <- read_message ;;
  text <- lift (decode (drop_last2 status_line)) ;;
  ' (version, status, reason) <- lift (unpack3 (split_None 2 text)) ;;
  if negb (str_eqb version (u "HTTP/1.1")) then raise UnsupportedVersion
  else
    status <- lift (to_int status) ;;
    ret (status, headers).

End Readers.

(** ** A stream over a byte buffer

    [readline] returns the bytes up to and including the first [\n], or
    everything that is left when there is none. *)

Fixpoint buffer_readline (buf : bytes) : bytes * bytes :=
  match buf with
  | [] => ([], [])
  | c :: r =>
    if Byte.eqb c LF then ([c], r)
    else let (line, rest) := buffer_readline r in (c :: line, rest)
  end.

Record Buffer : Type := mkBuffer { contents : bytes }.

#[export] Instance Buffer_reader : StreamReader Buffer :=
  fun s => let (line, rest) := buffer_readline (contents s) in (line, mkBuffer rest).

(** * The vocabulary of the statements *)

(** ** Lines and streams *)

(** What [read_line] lets through: at most [MAX_LINE] bytes, the last two
    being CRLF. *)
Definition valid_line (line : bytes) : bool :=
  (length line <=? MAX_LINE) && endswith Byte.eqb line CRLF.

(** A header line that keeps the loop of [read_message] going: valid and
    not blank. *)
Definition header_line_ok (line : bytes) : bool :=
  valid_line line && negb (bytes_eqb line CRLF).

Section Streams.

Context {S : Type} {stream : StreamReader S}.

(** The results of the next [n] calls of [readline], and the stream after
    them. *)
Fixpoint next_lines (n : nat) (s : S) : list bytes * S :=
  match n with
  | O => ([], s)
  | Datatypes.S n' =>
    let (line, s1) := readline s in
    let (lines, s2) := next_lines n' s1 in
    (line :: lines, s2)
  end.

End Streams.

(** A line as a buffer cuts it: it ends with LF and holds no other LF. *)
Definition is_line (line : bytes) : Prop :=
  exists body, line = body ++ [LF] /\ ~ In LF body.

(** ** Header lines on the wire *)

(** A field name: one or more printable ASCII characters other than the
    colon (and no space). *)
Definition is_name (name : bytes) : bool :=
  match name with
  | [] => false
  | _ => forallb (fun c => Email.is_ftext (Byte.to_N c)) name
  end.

(** A field value: any bytes but CR and LF. *)
Definition is_value (value : bytes) : bool :=
  forallb (fun c => negb (Byte.eqb c CR || Byte.eqb c LF)) value.

Definition well_formed (h : bytes * bytes) : bool :=
  is_name (fst h) && is_value (snd h).

(** The line on the wire, [name:value\r\n]. *)
Definition header_line (h : bytes * bytes) : bytes :=
  fst h ++ b ":" ++ snd h ++ CRLF.

(** The entry the parser makes of it: the name as written, the value
    without its leading spaces and tabs. *)
Definition entry (h : bytes * bytes) : str * str :=
  (Email.ascii_decode (fst h),
   Email.lstrip Email.is_wsp (Email.ascii_decode (snd h))).

(** Every header line has at most [MAX_LINE] bytes. *)
Definition within_limit (hs : list (bytes * bytes)) : bool :=
  forallb (fun h => length (header_line h) <=? MAX_LINE) hs.

(** A line that is no header: it is not blank, holds no colon, no CR and
    no LF, and starts neither with a space, a tab nor with "From ". *)
Definition not_a_header (line : bytes) : bool :=
  let t := Email.ascii_decode line in
  match t with
  | [] => false
  | _ =>
    forallb (fun c => negb (c =? 58)%N) t && is_value line
    && negb (Email.starts_wsp t) && negb (startswith N.eqb t (u "From "))
  end.

(** ** Header lines as the parser reads them *)

(** Text without CR and LF. *)
Definition no_nl (t : str) : Prop := forall c, In c t -> Email.is_nl c = false.

(** Text of name characters. *)
Definition ftext (n : str) : Prop := forall c, In c n -> Email.is_ftext c = true.

(** A header as text: a name, a value. *)
Definition wf_text (h : str * str) : Prop :=
  fst h <> [] /\ ftext (fst h) /\ no_nl (snd h).

Definition text_body (h : str * str) : str := fst h ++ 58%N :: snd h.
Definition text_line (h : str * str) : str := text_body h ++ [10%N].
Definition text_entry (h : str * str) : str * str :=
  (fst h, Email.lstrip Email.is_wsp (snd h)).

Definition header_text (h : bytes * bytes) : str * str :=
  (Email.ascii_decode (fst h), Email.ascii_decode (snd h)).

Definition add_headers (m : Email.Message) (es : list (str * str)) : Email.Message :=
  Email.mkMessage (Email._unixfrom m) (Email._headers m ++ es)
    (Email._payload m) (Email.defects m).

(** What the loop of [_parse_headers] keeps true of [lastheader] and
    [lastvalue]: a pending header has a first line with a colon. *)
Definition pending (lastheader : str) (lastvalue : list str) : Prop :=
  lastheader = [] \/
  exists first more,
    lastvalue = first :: more /\ Email.split_colon first <> None.

(** ** Start lines *)

(** ASCII text: the bytes below 128. *)
Definition is_ascii (bs : bytes) : bool :=
  forallb (fun c => (Byte.to_N c <? 128)%N) bs.

(** A field: not empty and without whitespace. *)
Definition word (w : str) : Prop :=
  w <> [] /\ forall c, In c w -> isspace c = false.

(** The lines of a valid handshake message. *)
Definition request_line (target : bytes) : bytes :=
  (b "GET " ++ target ++ b " HTTP/1.1") ++ CRLF.

Definition status_line (status reason : bytes) : bytes :=
  (b "HTTP/1.1 " ++ status ++ b " " ++ reason) ++ CRLF.

(** ** The status field *)

(** A decimal digit, of any script. *)
Definition is_decimal (c : N) : bool :=
  match decimal c with
  | Some _ => true
  | None => false
  end.

(** One or more of the digits 0 to 9. *)
Definition all_digits (r : str) : Prop :=
  r <> [] /\ forall c, In c r -> is_digit c = true.

(** A numeric field: digits, with or without a sign. *)
Inductive numeric : str -> Prop :=
| numeric_unsigned (r : str) : all_digits r -> numeric r
| numeric_plus (r : str) : all_digits r -> numeric (0x2B%N :: r)
| numeric_minus (r : str) : all_digits r -> numeric (0x2D%N :: r).

(** Decimal digits of any script, which single underscores may separate. *)
Inductive digit_groups : str -> Prop :=
| groups_one (d : N) : is_decimal d = true -> digit_groups [d]
| groups_digit (d : N) (r : str) :
    is_decimal d = true -> digit_groups r -> digit_groups (d :: r)
| groups_underscore (d : N) (r : str) :
    is_decimal d = true -> digit_groups r -> digit_groups (d :: underscore :: r).

(** The literals of [int]: digit groups, with or without a sign. *)
Inductive int_literal : str -> Prop :=
| literal_unsigned (r : str) : digit_groups r -> int_literal r
| literal_plus (r : str) : digit_groups r -> int_literal (0x2B%N :: r)
| literal_minus (r : str) : digit_groups r -> int_literal (0x2D%N :: r).

(** The number that the digits of a field write, in base ten. *)
Definition digits_value (acc : Z) (s : str) : Z :=
  fold_left
    (fun a c =>
       match decimal c with
       | Some d => (a * 10 + Z.of_N d)%Z
       | None => a
       end) s acc.

(** The integer a numeric field denotes. *)
Definition numeric_value (s : str) : Z :=
  match s with
  | c :: r => if (c =? 0x2D)%N then (- digits_value 0 r)%Z else digits_value 0 s
  | [] => 0%Z
  end.

(** ** Sample streams *)

(** A request with two headers, what is left of the stream being "tail". *)
Definition sample_request : Buffer :=
  mkBuffer (request_line (b "/chat?room=1")
            ++ header_line (b "Host", b " example.com")
            ++ header_line (b "Upgrade", b " websocket")
            ++ CRLF ++ b "tail").

Definition sample_response : Buffer :=
  mkBuffer (status_line (b "101") (b "Switching Protocols")
            ++ header_line (b "Upgrade", b " websocket")
            ++ CRLF).

(** 256 header lines and the blank line that ends them. *)
Definition block_of_256 : Buffer :=
  mkBuffer (request_line (b "/")
            ++ concat (repeat (header_line (b "a", b " b")) 256)
            ++ CRLF).

(** A response with 256 header lines and the blank line that ends them. *)
Definition response_of_256 : Buffer :=
  mkBuffer (status_line (b "101") (b "Switching Protocols")
            ++ concat (repeat (header_line (b "a", b " b")) 256)
            ++ CRLF).

(** A header block whose second line has no colon. *)
Definition block_without_colon : Buffer :=
  mkBuffer (request_line (b "/")
            ++ header_line (b "Host", b " example.com")
            ++ b "no colon here" ++ CRLF
            ++ header_line (b "X", b " y")
            ++ CRLF).

(** ** Failures, separators, folded headers *)

(** The error [read_line] raises for a line it refuses. *)
Definition line_error (line : bytes) : error :=
  if MAX_LINE <? length line then LineTooLong else MissingTerminator.

(** A run of whitespace. *)
Definition spaces (ws : str) : Prop := forall c, In c ws -> isspace c = true.

(** A continuation line, without its CRLF: it starts with a space or a tab
    and holds no CR and no LF. *)
Definition is_continuation (c : bytes) : bool :=
  Email.starts_wsp (Email.ascii_decode c) && is_value c.

(** A value with something else than spaces and tabs in it. *)
Definition visible (value : bytes) : bool :=
  match Email.lstrip Email.is_wsp (Email.ascii_decode value) with
  | [] => false
  | _ => true
  end.

(** A header with its continuation lines: a name, the value on the first
    line, the continuation lines.  A header that is continued has a
    visible value on its first line. *)
Definition folded_ok (h : bytes * bytes * list bytes) : bool :=
  let '(name, value, conts) := h in
  is_name name && is_value value && forallb is_continuation conts
  && match conts with
     | [] => true
     | _ => visible value
     end.

Definition folded_lines (h : bytes * bytes * list bytes) : list bytes :=
  let '(name, value, conts) := h in
  header_line (name, value) :: map (fun c => c ++ CRLF) conts.

(** The entry of a folded header: the first line's value without its
    leading blanks, then each continuation line after a newline. *)
Definition folded_entry (h : bytes * bytes * list bytes) : str * str :=
  let '(name, value, conts) := h in
  (Email.ascii_decode name,
   Email.lstrip Email.is_wsp (Email.ascii_decode value)
   ++ concat (map (fun c => 10%N :: Email.ascii_decode c) conts)).

(** The same as text. *)
Definition wf_folded (h : str * str * list str) : Prop :=
  let '(name, value, conts) := h in
  wf_text (name, value)
  /\ Forall (fun c => Email.starts_wsp c = true /\ no_nl c) conts.

Definition folded_text_lines (h : str * str * list str) : list str :=
  let '(name, value, conts) := h in
  text_line (name, value) :: map (fun c => c ++ [10%N]) conts.

Definition folded_text_entry (h : str * str * list str) : str * str :=
  let '(name, value, conts) := h in
  (name,
   Email.lstrip Email.is_wsp value ++ concat (map (fun c => 10%N :: c) conts)).

Definition folded_bodies (h : str * str * list str) : list str :=
  let '(name, value, conts) := h in text_body (name, value) :: conts.

Definition folded_text (h : bytes * bytes * list bytes) : str * str * list str :=
  let '(name, value, conts) := h in
  (Email.ascii_decode name, Email.ascii_decode value,
   map Email.ascii_decode conts).

(** ** More sample streams *)

(** A stream that ends in the middle of the headers. *)
Definition truncated_request : Buffer :=
  mkBuffer (request_line (b "/") ++ header_line (b "Host", b " example.com")
            ++ b "Upgrade: webso").

(** Tabs and several spaces between the fields. *)
Definition spaced_request : Buffer :=
  mkBuffer (b "  GET" ++ [x09] ++ b "/chat   HTTP/1.1" ++ CRLF ++ CRLF).

(** A space after the version. *)
Definition trailing_space_request : Buffer :=
  mkBuffer (b "GET /chat HTTP/1.1 " ++ CRLF ++ CRLF).

(** A byte that UTF-8 never uses, in the target. *)
Definition binary_request : Buffer :=
  mkBuffer (b "GET /" ++ [xff] ++ b " HTTP/1.1" ++ CRLF ++ CRLF).

(** An old version and a status that is no number. *)
Definition old_response : Buffer :=
  mkBuffer (b "HTTP/1.0 abc Nothing" ++ CRLF ++ CRLF).

(** A header continued on a second line. *)
Definition folded_request : Buffer :=
  mkBuffer (request_line (b "/")
            ++ b "Subject: hello" ++ CRLF
            ++ b "  world" ++ CRLF
            ++ header_line (b "Host", b " example.com")
            ++ CRLF).

(** * The properties *)

(** ** Lists, equality tests and suffixes *)

Section EqbList.

Variable A : Type.
Variable eqb : A -> A -> bool.
Hypothesis eqb_spec : forall x y, eqb x y = true <-> x = y.

Lemma eqb_list_eq (xs ys : list A) : eqb_list eqb xs ys = true <-> xs = ys.
Proof.
  revert ys; induction xs as [|x xs IH]; intros [|y ys]; simpl;
    try (split; [discriminate | discriminate]); try tauto.
  rewrite andb_true_iff, eqb_spec, IH.
  split; [intros [-> ->]; reflexivity | intros E; injection E; auto].
Qed.

Lemma endswith_suffix (s suffix : list A) :
  endswith eqb s suffix = true <-> exists body, s = body ++ suffix.
Proof.
  unfold endswith; rewrite eqb_list_eq; split.
  - intros E; exists (firstn (length s - length suffix) s).
    pose proof (firstn_skipn (length s - length suffix) s) as H.
    rewrite E in H; symmetry; exact H.
  - intros [body ->]; rewrite length_app.
    replace (length body + length suffix - length suffix) with (length body + 0) by lia.
    rewrite skipn_app, Nat.add_0_r, skipn_all. simpl.
    replace (length body - length body) with 0 by lia; reflexivity.
Qed.

Lemma startswith_prefix (s prefix : list A) :
  startswith eqb s prefix = true <-> exists tail, s = prefix ++ tail.
Proof.
  unfold startswith; rewrite eqb_list_eq; split.
  - intros E; exists (skipn (length prefix) s).
    pose proof (firstn_skipn (length prefix) s) as H.
    rewrite E in H; symmetry; exact H.
  - intros [tail ->]; rewrite firstn_app, firstn_all, Nat.sub_diag; simpl.
    apply app_nil_r.
Qed.

End EqbList.

Lemma byte_eqb_eq (x y : byte) : Byte.eqb x y = true <-> x = y.
Proof. split; [apply Byte.byte_dec_bl | apply Byte.byte_dec_lb]. Qed.

Lemma bytes_eqb_eq (x y : bytes) : bytes_eqb x y = true <-> x = y.
Proof. apply eqb_list_eq, byte_eqb_eq. Qed.

Lemma str_eqb_eq (x y : str) : str_eqb x y = true <-> x = y.
Proof. apply eqb_list_eq, N.eqb_eq. Qed.

Lemma endswith_bytes (s suffix : bytes) :
  endswith Byte.eqb s suffix = true <-> exists body, s = body ++ suffix.
Proof. apply endswith_suffix, byte_eqb_eq. Qed.

Lemma startswith_str (s prefix : str) :
  startswith N.eqb s prefix = true <-> exists tail, s = prefix ++ tail.
Proof. apply startswith_prefix, N.eqb_eq. Qed.

Lemma bytes_eqb_neq (x y : bytes) : bytes_eqb x y = false <-> x <> y.
Proof.
  rewrite <- bytes_eqb_eq; destruct (bytes_eqb x y); split; congruence.
Qed.

Lemma str_eqb_neq (x y : str) : str_eqb x y = false <-> x <> y.
Proof.
  rewrite <- str_eqb_eq; destruct (str_eqb x y); split; congruence.
Qed.

Lemma drop_last2_app {A} (body : list A) (x y : A) :
  drop_last2 (body ++ [x; y]) = body.
Proof.
  unfold drop_last2; rewrite length_app; simpl.
  replace (length body + 2 - 2) with (length body + 0) by lia.
  rewrite firstn_app_2; simpl; apply app_nil_r.
Qed.

Lemma drop_last2_CRLF (body : bytes) : drop_last2 (body ++ CRLF) = body.
Proof. apply drop_last2_app. Qed.

(** ** The line reader *)

Section LineReader.

Context {S : Type} {stream : StreamReader S}.

Lemma read_line_cases (s : S) :
  read_line s =
  (if MAX_LINE <? length (fst (readline s)) then Raise LineTooLong
   else if endswith Byte.eqb (fst (readline s)) CRLF then Ok (fst (readline s))
        else Raise MissingTerminator,
   snd (readline s)).
Proof.
  unfold read_line; destruct (readline s) as [line s']; simpl.
  destruct (MAX_LINE <? length line); [reflexivity|].
  destruct (endswith Byte.eqb line CRLF); reflexivity.
Qed.

Lemma read_line_valid (s : S) :
  valid_line (fst (readline s)) = true ->
  read_line s = (Ok (fst (readline s)), snd (readline s)).
Proof.
  unfold valid_line; rewrite andb_true_iff, Nat.leb_le; intros [Hlen Hend].
  rewrite read_line_cases, Hend.
  destruct (Nat.ltb_spec MAX_LINE (length (fst (readline s)))); [lia | reflexivity].
Qed.

Lemma read_line_Ok (s s' : S) (line : bytes) :
  read_line s = (Ok line, s') ->
  readline s = (line, s') /\ valid_line line = true.
Proof.
  rewrite read_line_cases; unfold valid_line.
  destruct (Nat.ltb_spec MAX_LINE (length (fst (readline s)))); [discriminate|].
  destruct (endswith Byte.eqb (fst (readline s)) CRLF) eqn:E; [|discriminate].
  intros H1; injection H1 as <- <-; split.
  - destruct (readline s); reflexivity.
  - rewrite E, andb_true_r; apply Nat.leb_le; assumption.
Qed.

(** C4.  A line of exactly 4096 bytes that ends with CRLF is returned;
    a line of 4097 bytes or more raises "Line too long", whether or not it
    ends with CRLF: the length is tested first. *)
Theorem read_line_length_limit (s : S) (line : bytes) (s' : S) :
  readline s = (line, s') ->
  (length line = 4096 -> (exists body, line = body ++ CRLF) ->
   read_line s = (Ok line, s'))
  /\ (4097 <= length line -> read_line s = (Raise LineTooLong, s')).
Proof.
  intros R; rewrite read_line_cases, R; simpl; split.
  - intros Hlen Hend; apply endswith_bytes in Hend.
    rewrite Hend, Hlen; reflexivity.
  - intros Hlen.
    destruct (Nat.ltb_spec MAX_LINE (length line)); [reflexivity|].
    unfold MAX_LINE in *; lia.
Qed.

(** C5.  A line of at most 4096 bytes that does not end with CRLF (the
    empty result at the end of the stream, a truncated line, a line ending
    with a bare LF) raises "Line without CRLF"; what [read_line] returns is
    the line as read, its CRLF still attached. *)
Theorem read_line_terminator (s : S) (line : bytes) (s' : S) :
  readline s = (line, s') ->
  (length line <= 4096 -> ~ (exists body, line = body ++ CRLF) ->
   read_line s = (Raise MissingTerminator, s'))
  /\ (forall r s'', read_line s = (Ok r, s'') ->
      r = line /\ s'' = s' /\ exists body, r = body ++ CRLF).
Proof.
  intros R; split.
  - intros Hlen Hend; rewrite read_line_cases, R; simpl.
    destruct (Nat.ltb_spec MAX_LINE (length line)); [unfold MAX_LINE in *; lia|].
    destruct (endswith Byte.eqb line CRLF) eqn:E; [|reflexivity].
    apply endswith_bytes in E; contradiction.
  - intros r s'' H; apply read_line_Ok in H as [H1 H2].
    rewrite R in H1; injection H1 as <- <-.
    unfold valid_line in H2; apply andb_true_iff in H2 as [_ H2].
    apply endswith_bytes in H2; auto.
Qed.

End LineReader.

(** ** The message reader: the loop over the header lines *)

Section MessageReader.

Context {S : Type} {stream : StreamReader S}.

Lemma next_lines_cons (n : nat) (s s' : S) (line : bytes) (lines : list bytes) :
  next_lines (Datatypes.S n) s = (line :: lines, s') ->
  fst (readline s) = line /\ next_lines n (snd (readline s)) = (lines, s').
Proof.
  simpl; destruct (readline s) as [l s1]; simpl.
  destruct (next_lines n s1) as [ls s2].
  intros H; injection H as -> -> ->; auto.
Qed.

Lemma next_lines_length (n : nat) (s : S) : length (fst (next_lines n s)) = n.
Proof.
  revert s; induction n as [|n IH]; intros s; simpl; [reflexivity|].
  destruct (readline s) as [l s1]; specialize (IH s1).
  destruct (next_lines n s1); simpl in *; congruence.
Qed.

Lemma CRLF_valid : valid_line CRLF = true.
Proof. reflexivity. Qed.

(** The loop runs out of iterations when the next [n] lines are all valid
    and none of them is blank. *)
Lemma read_headers_exhausted (hs : list bytes) :
  forall (n : nat) (buf : bytes) (s s' : S),
    next_lines n s = (hs, s') ->
    forallb header_line_ok hs = true ->
    read_headers n buf s = (Raise TooManyHeaders, s').
Proof.
  induction hs as [|h hs IH]; intros n buf s s' Hn Hok.
  - destruct n as [|n].
    + simpl in Hn; injection Hn as <-; reflexivity.
    + pose proof (next_lines_length (Datatypes.S n) s) as L.
      rewrite Hn in L; discriminate.
  - destruct n as [|n]; [discriminate|].
    apply next_lines_cons in Hn as [H1 H2].
    simpl in Hok; apply andb_true_iff in Hok as [Hh Hok].
    unfold header_line_ok in Hh; apply andb_true_iff in Hh as [Hv Hb].
    simpl; unfold bind; rewrite read_line_valid; rewrite H1; [|assumption].
    apply negb_true_iff in Hb; rewrite Hb.
    apply IH; assumption.
Qed.

(** The loop stops at the blank line when fewer than [n] valid lines come
    before it, and returns all it has read, the blank line included. *)
Lemma read_headers_terminated (hs : list bytes) :
  forall (n : nat) (buf : bytes) (s s' : S),
    next_lines (length hs + 1) s = (hs ++ [CRLF], s') ->
    forallb header_line_ok hs = true ->
    length hs < n ->
    read_headers n buf s = (Ok (buf ++ concat hs ++ CRLF), s').
Proof.
  induction hs as [|h hs IH]; intros n buf s s' Hn Hok Hlt;
    (destruct n as [|n]; [simpl in Hlt; lia|]).
  - apply next_lines_cons in Hn as [H1 H2].
    simpl in H2; injection H2 as <-.
    simpl; unfold bind; rewrite read_line_valid; rewrite H1; [|reflexivity].
    reflexivity.
  - apply next_lines_cons in Hn as [H1 H2].
    simpl in Hok; apply andb_true_iff in Hok as [Hh Hok].
    unfold header_line_ok in Hh; apply andb_true_iff in Hh as [Hv Hb].
    simpl; unfold bind; rewrite read_line_valid; rewrite H1; [|assumption].
    apply negb_true_iff in Hb; rewrite Hb.
    rewrite (IH n (buf ++ h) _ s' H2 Hok); [|simpl in Hlt; lia].
    rewrite <- !app_assoc; reflexivity.
Qed.

(** C1.  [read_message] raises "Too many headers" as soon as the start line
    is followed by 256 valid lines none of which is blank, whatever comes
    next: the loop has [MAX_HEADERS] iterations and the blank line needs one
    of them.  So a block of exactly 256 header lines and its blank line is
    refused, as is one of 257 header lines. *)
Theorem read_message_256_headers (s : S) (start : bytes) (hs : list bytes) (s' : S) :
  next_lines 257 s = (start :: hs, s') ->
  valid_line start = true ->
  forallb header_line_ok hs = true ->
  read_message s = (Raise TooManyHeaders, s').
Proof.
  intros Hn Hstart Hok.
  apply next_lines_cons in Hn as [H1 H2].
  unfold read_message, bind.
  rewrite read_line_valid; rewrite H1; [|assumption].
  change MAX_HEADERS with 256.
  rewrite (@read_headers_exhausted hs 256 [] _ s' H2 Hok); reflexivity.
Qed.

End MessageReader.

(** ** The buffer as a stream *)

Lemma buffer_readline_line (body rest : bytes) :
  ~ In LF body -> buffer_readline (body ++ LF :: rest) = (body ++ [LF], rest).
Proof.
  induction body as [|c body IH]; intros H; [reflexivity|].
  cbn [app buffer_readline].
  destruct (Byte.eqb c LF) eqn:E.
  - apply byte_eqb_eq in E; exfalso; apply H; left; exact E.
  - rewrite IH; [reflexivity | intros I; apply H; right; exact I].
Qed.

Lemma Buffer_readline_line (body rest : bytes) :
  ~ In LF body ->
  readline (mkBuffer (body ++ LF :: rest)) = (body ++ [LF], mkBuffer rest).
Proof.
  intros H; unfold readline, Buffer_reader; cbn [contents].
  rewrite buffer_readline_line by assumption; reflexivity.
Qed.

(** Reading a buffer made of lines gives the lines back, one by one, and
    leaves what follows them. *)
Lemma buffer_next_lines (lines : list bytes) (rest : bytes) :
  Forall is_line lines ->
  next_lines (length lines) (mkBuffer (concat lines ++ rest))
  = (lines, mkBuffer rest).
Proof.
  induction 1 as [|line lines (body & -> & Hbody) _ IH]; [reflexivity|].
  cbn [length next_lines concat]; rewrite <- !app_assoc; cbn [app].
  rewrite Buffer_readline_line by assumption.
  rewrite IH; reflexivity.
Qed.

(** ** The header parser never raises *)

Module EmailFacts.

Import Email.

Lemma ftext_colon_find (line : str) :
  ftext_colon line = true ->
  (exists i, find_colon line = Some i) /\ split_colon line <> None.
Proof.
  induction line as [|c r IH]; simpl; [discriminate|].
  destruct (c =? 58)%N; [intros _; split; [eauto | discriminate]|].
  destruct (is_ftext c); [|discriminate].
  intros H; destruct (IH H) as [[i Hi] Hs]; rewrite Hi; split; [simpl; eauto|].
  destruct (split_colon r) as [[n v]|]; [discriminate | contradiction].
Qed.

Lemma flush_pending (lastheader : str) (lastvalue : list str) (cur : Message) :
  pending lastheader lastvalue -> exists cur', flush lastheader lastvalue cur = Ok cur'.
Proof.
  intros [-> | (first & more & -> & Hs)]; [simpl; eauto|].
  destruct lastheader; [simpl; eauto|].
  simpl; destruct (split_colon first) as [[nm vl]|]; [simpl; eauto | contradiction].
Qed.

Lemma _parse_headers_total (lines : list str) :
  Forall (fun l => headerRE l = true) lines ->
  forall lineno nlines lastheader lastvalue cur,
    pending lastheader lastvalue ->
    exists r, _parse_headers lineno nlines lines lastheader lastvalue cur = Ok r.
Proof.
  induction 1 as [|line rest Hline _ IH]; intros lineno nlines lh lv cur P.
  - simpl; destruct (flush_pending cur P) as [cur' ->]; simpl; eauto.
  - destruct line as [|c0 l0]; [discriminate Hline|].
    cbn [_parse_headers].
    destruct (is_wsp c0) eqn:W.
    + destruct lh as [|h lh'].
      * apply IH; left; reflexivity.
      * apply IH; right.
        destruct P as [P | (first & more & -> & Hs)]; [discriminate P|].
        exists first, (more ++ [c0 :: l0]); auto.
    + destruct (flush_pending cur P) as [cur' ->]; cbn [rbind].
      assert (Hreset : exists lv', (match lh with
                                    | [] => (lh, lv)
                                    | _ => ([], [])
                                    end) = ([], lv')).
      { destruct lh; eauto. }
      destruct Hreset as [lv' ->].
      destruct (startswith N.eqb (c0 :: l0) (u "From ")) eqn:F.
      * destruct (Nat.eqb lineno 0); [apply IH; left; reflexivity|].
        destruct (Nat.eqb lineno (nlines - 1)); [eauto|].
        apply IH; left; reflexivity.
      * unfold headerRE in Hline; rewrite F in Hline.
        cbn [starts_wsp] in Hline; rewrite W, orb_false_r in Hline.
        destruct (@ftext_colon_find (c0 :: l0) Hline) as [[i Hi] Hs]; rewrite Hi.
        destruct i as [|i]; [apply IH; left; reflexivity|].
        apply IH; right; exists (c0 :: l0), []; auto.
Qed.

Lemma header_section_headers (lines : list str) :
  Forall (fun l => headerRE l = true) (fst (fst (header_section lines))).
Proof.
  induction lines as [|line rest IH]; simpl; [constructor|].
  destruct (headerRE line) eqn:H.
  - destruct (header_section rest) as [[hs r] ds]; simpl in *; constructor; auto.
  - destruct (NLCRE line); simpl; constructor.
Qed.

(** Whatever the buffer holds, the parser returns a message. *)
Lemma parse_total (raw : bytes) : exists m, parse raw = Ok m.
Proof.
  unfold parse, _parsegen.
  pose proof (header_section_headers (readlines (universal_newlines (ascii_decode raw)))) as H.
  destruct (header_section _) as [[hs rest] ds]; simpl in H.
  destruct (@_parse_headers_total hs H 0 (length hs) [] []
              (mkMessage None [] [] ds)) as [[cur unread] ->];
    [left; reflexivity|].
  simpl; eauto.
Qed.

End EmailFacts.

(** ** Well-formed header lines *)

Module HeaderLines.

Import Email.
Local Open Scope N_scope.

Lemma universal_newlines_line (body rest : str) :
  no_nl body ->
  universal_newlines (body ++ 13 :: 10 :: rest) = body ++ 10 :: universal_newlines rest.
Proof.
  induction body as [|c body IH]; intros H; [reflexivity|].
  cbn [app universal_newlines].
  assert (Hc : is_nl c = false) by (apply H; left; reflexivity).
  unfold is_nl in Hc; apply orb_false_iff in Hc as [-> _].
  rewrite IH; [reflexivity|].
  intros x Hx; apply H; right; assumption.
Qed.

Lemma universal_newlines_no_nl (body : str) :
  no_nl body -> universal_newlines body = body.
Proof.
  induction body as [|c body IH]; intros H; [reflexivity|].
  cbn [universal_newlines].
  assert (Hc : is_nl c = false) by (apply H; left; reflexivity).
  unfold is_nl in Hc; apply orb_false_iff in Hc as [-> _].
  rewrite IH; [reflexivity|].
  intros x Hx; apply H; right; assumption.
Qed.

Lemma readlines_line (body rest : str) :
  no_nl body ->
  readlines (body ++ 10 :: rest) = (body ++ [10]) :: readlines rest.
Proof.
  induction body as [|c body IH]; intros H; [reflexivity|].
  cbn [app readlines].
  assert (Hc : is_nl c = false) by (apply H; left; reflexivity).
  unfold is_nl in Hc; apply orb_false_iff in Hc as [_ ->].
  rewrite IH; [reflexivity|].
  intros x Hx; apply H; right; assumption.
Qed.

Lemma concat_readlines (t : str) : concat (readlines t) = t.
Proof.
  induction t as [|c t IH]; [reflexivity|].
  cbn [readlines]; destruct (c =? 10).
  - simpl; rewrite IH; reflexivity.
  - destruct (readlines t) as [|l ls]; simpl in *; rewrite <- IH; reflexivity.
Qed.

(** The lines of a block made of CRLF-terminated lines without inner
    newlines, followed by any text. *)
Lemma lines_of_block (bodies : list str) (tail : str) :
  Forall no_nl bodies ->
  readlines (universal_newlines
               (concat (map (fun t => t ++ [13; 10]) bodies) ++ tail))
  = map (fun t => t ++ [10]) bodies ++ readlines (universal_newlines tail).
Proof.
  induction 1 as [|t bodies Ht _ IH]; [reflexivity|].
  cbn [map concat app]; rewrite <- !app_assoc; cbn [app].
  rewrite universal_newlines_line, readlines_line, IH by assumption.
  reflexivity.
Qed.

(** *** One well-formed line *)

Lemma is_ftext_not_colon (c : N) : is_ftext c = true -> (c =? 58) = false.
Proof.
  unfold is_ftext, in_range; intros H; apply N.eqb_neq; intros ->.
  discriminate H.
Qed.

Lemma is_ftext_not_wsp (c : N) : is_ftext c = true -> is_wsp c = false.
Proof.
  unfold is_ftext, in_range, is_wsp; intros H.
  apply orb_false_iff; split; apply N.eqb_neq; intros ->; discriminate H.
Qed.

Lemma is_ftext_not_nl (c : N) : is_ftext c = true -> is_nl c = false.
Proof.
  unfold is_ftext, in_range, is_nl; intros H.
  apply orb_false_iff; split; apply N.eqb_neq; intros ->; discriminate H.
Qed.

Lemma ftext_colon_name (n r : str) : ftext n -> ftext_colon (n ++ 58 :: r) = true.
Proof.
  induction n as [|c n IH]; intros H; [reflexivity|].
  assert (Hc : is_ftext c = true) by (apply H; left; reflexivity).
  cbn [app ftext_colon]; rewrite (is_ftext_not_colon _ Hc), Hc.
  apply IH; intros x Hx; apply H; right; assumption.
Qed.

Lemma find_colon_name (n r : str) :
  ftext n -> find_colon (n ++ 58 :: r) = Some (length n).
Proof.
  induction n as [|c n IH]; intros H; [reflexivity|].
  assert (Hc : is_ftext c = true) by (apply H; left; reflexivity).
  cbn [app find_colon]; rewrite (is_ftext_not_colon _ Hc), IH; [reflexivity|].
  intros x Hx; apply H; right; assumption.
Qed.

Lemma split_colon_name (n r : str) :
  ftext n -> split_colon (n ++ 58 :: r) = Some (n, r).
Proof.
  induction n as [|c n IH]; intros H; [reflexivity|].
  assert (Hc : is_ftext c = true) by (apply H; left; reflexivity).
  cbn [app split_colon]; rewrite (is_ftext_not_colon _ Hc), IH; [reflexivity|].
  intros x Hx; apply H; right; assumption.
Qed.

Lemma not_From_name (n r : str) :
  ftext n -> startswith N.eqb (n ++ 58 :: r) (u "From ") = false.
Proof.
  intros H; destruct (startswith _ _ _) eqn:E; [|reflexivity]; exfalso.
  apply startswith_str in E as [tail E].
  assert (H32 : ~ In 32 n) by (intros I; apply H in I; discriminate I).
  change (u "From ") with [70; 114; 111; 109; 32] in E.
  destruct n as [|c1 [|c2 [|c3 [|c4 [|c5 n]]]]];
    cbn [app] in E; try discriminate E.
  injection E as _ _ _ _ E5 _; apply H32; subst c5; simpl; tauto.
Qed.

Lemma lstrip_app_stop (chars : N -> bool) (t : str) (c : N) (r : str) :
  chars c = false -> lstrip chars (t ++ c :: r) = lstrip chars t ++ c :: r.
Proof.
  intros Hc; induction t as [|x t IH]; cbn [app lstrip]; [rewrite Hc; reflexivity|].
  destruct (chars x); [assumption | reflexivity].
Qed.

Lemma lstrip_In (chars : N -> bool) (t : str) (c : N) :
  In c (lstrip chars t) -> In c t.
Proof.
  induction t as [|x t IH]; cbn [lstrip]; [auto|].
  destruct (chars x); [right; auto | auto].
Qed.

Lemma lstrip_none (chars : N -> bool) (t : str) :
  (forall c, In c t -> chars c = false) -> lstrip chars t = t.
Proof.
  destruct t as [|x t]; [reflexivity|]; intros H; cbn [lstrip].
  rewrite (H x); [reflexivity | left; reflexivity].
Qed.

(** The value of a one-line header: leading blanks off, newline off. *)
Lemma header_value (v : str) :
  no_nl v -> rstrip is_nl (lstrip is_wsp (v ++ [10]) ++ concat []) = lstrip is_wsp v.
Proof.
  intros H; cbn [concat]; rewrite app_nil_r.
  rewrite lstrip_app_stop by reflexivity.
  unfold rstrip; rewrite rev_app_distr; cbn [rev app lstrip].
  change (is_nl 10) with true; cbn iota.
  rewrite lstrip_none, rev_involutive; [reflexivity|].
  intros c Hc; apply in_rev, lstrip_In in Hc; auto.
Qed.

End HeaderLines.

(** ** The parser on a block of well-formed lines *)

Module HeaderBlock.

Import Email HeaderLines.
Local Open Scope N_scope.

Lemma add_headers_nil (m : Message) : add_headers m [] = m.
Proof. destruct m; unfold add_headers; simpl; rewrite app_nil_r; reflexivity. Qed.

Lemma tline_eq (h : str * str) : text_line h = fst h ++ 58 :: (snd h ++ [10]).
Proof. unfold text_line, text_body; rewrite <- app_assoc; reflexivity. Qed.

Lemma headerRE_tline (h : str * str) : wf_text h -> headerRE (text_line h) = true.
Proof.
  intros (_ & Hn & _); unfold headerRE; rewrite tline_eq.
  rewrite ftext_colon_name by assumption.
  rewrite orb_true_r; reflexivity.
Qed.

Lemma flush_tline (h : str * str) (cur : Message) :
  wf_text h -> flush (fst h) [text_line h] cur = Ok (set_raw cur (text_entry h)).
Proof.
  intros (Hne & Hn & Hv); unfold flush.
  rewrite tline_eq.
  destruct (fst h) as [|c0 n'] eqn:E; [contradiction|].
  unfold header_source_parse.
  rewrite split_colon_name by assumption.
  rewrite header_value by assumption.
  unfold text_entry; rewrite E; reflexivity.
Qed.

Lemma _parse_headers_wf (hs : list (str * str)) :
  Forall wf_text hs ->
  forall lineno nlines lastheader lastvalue cur cur',
    flush lastheader lastvalue cur = Ok cur' ->
    _parse_headers lineno nlines (map text_line hs) lastheader lastvalue cur
    = Ok (add_headers cur' (map text_entry hs), []).
Proof.
  induction 1 as [|h hs Hh _ IH]; intros lineno nlines lh lv cur cur' Hf.
  - simpl; rewrite Hf; simpl; rewrite add_headers_nil; reflexivity.
  - pose proof (flush_tline cur' Hh) as Hnext.
    destruct Hh as (Hne & Hn & Hv).
    cbn [map _parse_headers].
    pose proof (tline_eq h) as E.
    destruct (fst h) as [|c0 n'] eqn:En; [contradiction|].
    cbn [app] in E; rewrite E at 1.
    rewrite (is_ftext_not_wsp c0) by (apply Hn; left; reflexivity).
    rewrite Hf; cbn [rbind].
    assert (Hfrom : startswith N.eqb (text_line h) (u "From ") = false).
    { rewrite tline_eq, En; apply not_From_name; assumption. }
    assert (Hfind : find_colon (text_line h) = Some (Datatypes.S (length n'))).
    { rewrite tline_eq, En; apply (find_colon_name _ Hn). }
    assert (Hfirst : firstn (Datatypes.S (length n')) (text_line h) = c0 :: n').
    { rewrite tline_eq, En.
      change (Datatypes.S (length n')) with (length (c0 :: n')).
      rewrite firstn_app, firstn_all, Nat.sub_diag; simpl.
      rewrite app_nil_r; reflexivity. }
    destruct lh; cbn iota beta; rewrite Hfrom, Hfind, Hfirst;
      rewrite (IH _ _ _ _ _ _ Hnext);
      unfold add_headers, set_raw; simpl; rewrite <- app_assoc; reflexivity.
Qed.

Lemma header_section_app (ls tl : list str) :
  Forall (fun l => headerRE l = true) ls ->
  header_section (ls ++ tl)
  = let '(hs, rest, ds) := header_section tl in (ls ++ hs, rest, ds).
Proof.
  induction 1 as [|l ls Hl _ IH]; cbn [app header_section].
  - destruct (header_section tl) as [[hs rest] ds]; reflexivity.
  - rewrite Hl, IH.
    destruct (header_section tl) as [[hs rest] ds]; reflexivity.
Qed.

(** Well-formed lines, then lines of which the first is no header: the
    entries are those of the well-formed lines, in their order. *)
Lemma _parsegen_wf (hs : list (str * str)) (tl rest : list str) (ds : list defect) :
  Forall wf_text hs ->
  header_section tl = ([], rest, ds) ->
  _parsegen (map text_line hs ++ tl)
  = Ok (mkMessage None (map text_entry hs) (concat rest) ds).
Proof.
  intros Hwf Htl; unfold _parsegen.
  rewrite header_section_app, Htl.
  - rewrite app_nil_r.
    rewrite (@_parse_headers_wf hs Hwf 0 _ [] [] _ (mkMessage None [] [] ds));
      reflexivity.
  - clear Htl; induction Hwf; constructor; auto using headerRE_tline.
Qed.

(** *** From bytes to text *)

Lemma surrogateescape_low (c : byte) :
  Byte.to_N c < 128 -> surrogateescape c = Byte.to_N c.
Proof.
  unfold surrogateescape; intros H.
  destruct (N.ltb_spec (Byte.to_N c) 128); [reflexivity | lia].
Qed.

Lemma surrogateescape_cases (c : byte) :
  surrogateescape c = Byte.to_N c \/ 0xDC00 <= surrogateescape c.
Proof.
  unfold surrogateescape.
  destruct (N.ltb_spec (Byte.to_N c) 128); [left; reflexivity | right; lia].
Qed.

Lemma to_N_inj (x y : byte) : Byte.to_N x = Byte.to_N y -> x = y.
Proof.
  intros H; pose proof (Byte.of_to_N x) as Hx; pose proof (Byte.of_to_N y) as Hy.
  congruence.
Qed.

Lemma is_name_text (n : bytes) :
  is_name n = true -> ascii_decode n <> [] /\ ftext (ascii_decode n).
Proof.
  unfold is_name; destruct n as [|c0 n]; [discriminate|].
  intros H; split; [discriminate|].
  rewrite forallb_forall in H.
  intros x Hx; apply in_map_iff in Hx as (c & <- & Hc).
  specialize (H c Hc); rewrite surrogateescape_low; [assumption|].
  unfold is_ftext, in_range in H.
  apply orb_true_iff in H as [H | H];
    apply andb_true_iff in H as [_ H]; apply N.leb_le in H; lia.
Qed.

Lemma is_value_text (v : bytes) : is_value v = true -> no_nl (ascii_decode v).
Proof.
  unfold is_value; rewrite forallb_forall; intros H x Hx.
  apply in_map_iff in Hx as (c & <- & Hc).
  specialize (H c Hc); apply negb_true_iff, orb_false_iff in H as [H1 H2].
  apply Byte.eqb_false in H1, H2.
  unfold is_nl; apply orb_false_iff; split; apply N.eqb_neq; intros E;
    destruct (surrogateescape_cases c) as [Hs | Hs]; rewrite E in Hs;
    try lia; [apply H1 | apply H2]; apply to_N_inj; rewrite <- Hs; reflexivity.
Qed.

Lemma well_formed_wf (h : bytes * bytes) : well_formed h = true -> wf_text (header_text h).
Proof.
  unfold well_formed; rewrite andb_true_iff; intros [Hn Hv].
  apply is_name_text in Hn as [Hne Hn]; apply is_value_text in Hv.
  repeat split; assumption.
Qed.

Lemma no_nl_body (h : str * str) : wf_text h -> no_nl (text_body h).
Proof.
  intros (_ & Hn & Hv) c Hc; unfold text_body in Hc.
  apply in_app_or in Hc as [Hc | [<- | Hc]]; auto using is_ftext_not_nl.
Qed.

Lemma ascii_decode_block (hs : list (bytes * bytes)) (tail : bytes) :
  ascii_decode (concat (map header_line hs) ++ tail)
  = concat (map (fun t => t ++ [13; 10]) (map text_body (map header_text hs)))
    ++ ascii_decode tail.
Proof.
  unfold ascii_decode; rewrite map_app; f_equal.
  induction hs as [|h hs IH]; [reflexivity|].
  cbn [map concat]; rewrite map_app, IH; f_equal.
  unfold header_line, text_body, header_text; cbn [fst snd].
  rewrite !map_app, <- app_assoc; reflexivity.
Qed.

(** The parser on well-formed header lines followed by [tail]. *)
Lemma parse_block (hs : list (bytes * bytes)) (tail : bytes)
    (rest : list str) (ds : list defect) :
  forallb well_formed hs = true ->
  header_section (readlines (universal_newlines (ascii_decode tail)))
  = ([], rest, ds) ->
  parse (concat (map header_line hs) ++ tail)
  = Ok (close (mkMessage None (map entry hs) (concat rest) ds)).
Proof.
  intros Hwf Htail; unfold parse.
  assert (W : Forall wf_text (map header_text hs)).
  { rewrite forallb_forall in Hwf; apply Forall_forall.
    intros h Hh; apply in_map_iff in Hh as (h0 & <- & Hh0).
    apply well_formed_wf; auto. }
  rewrite ascii_decode_block, lines_of_block.
  - replace (map (fun t => t ++ [10]) (map text_body (map header_text hs)))
      with (map text_line (map header_text hs)) by (rewrite (map_map text_body); reflexivity).
    pose proof (@_parsegen_wf _ _ _ _ W Htail) as P.
    match goal with
    | |- rbind ?x _ = _ => replace x with (Ok (mkMessage None (map text_entry (map header_text hs)) (concat rest) ds))
    end.
    cbn [rbind]; unfold text_entry, header_text, entry; rewrite map_map; reflexivity.
  - clear Htail; induction W; constructor; auto using no_nl_body.
Qed.

(** A block of well-formed lines and the blank line. *)
Lemma parse_headers_block (hs : list (bytes * bytes)) :
  forallb well_formed hs = true ->
  parse (concat (map header_line hs) ++ CRLF)
  = Ok (close (mkMessage None (map entry hs) [] [])).
Proof.
  intros Hwf; apply (@parse_block hs CRLF [] [] Hwf); reflexivity.
Qed.

End HeaderBlock.

Module NoHeader.

Import Email HeaderLines HeaderBlock.
Local Open Scope N_scope.

Lemma startswith_snoc (p t : str) (x : N) :
  ~ In x p ->
  startswith N.eqb (t ++ [x]) p = true -> startswith N.eqb t p = true.
Proof.
  unfold startswith; revert t; induction p as [|a p IH]; intros t Hx.
  - intros _; destruct t; reflexivity.
  - destruct t as [|c t]; cbn [app length firstn eqb_list].
    + rewrite andb_true_iff, N.eqb_eq; intros [E _].
      exfalso; apply Hx; left; symmetry; exact E.
    + rewrite !andb_true_iff; intros [E H]; split; [exact E|].
      apply IH; [intros I; apply Hx; right; exact I | exact H].
Qed.

Lemma ftext_colon_none (t : str) :
  forallb (fun c => negb (c =? 58)) t = true -> ftext_colon (t ++ [10]) = false.
Proof.
  induction t as [|c t IH]; [reflexivity|].
  cbn [forallb app ftext_colon]; rewrite andb_true_iff, negb_true_iff.
  intros [-> H]; destruct (is_ftext c); auto.
Qed.

Lemma not_a_header_line (line : bytes) :
  not_a_header line = true ->
  no_nl (ascii_decode line)
  /\ headerRE (ascii_decode line ++ [10]) = false
  /\ NLCRE (ascii_decode line ++ [10]) = false.
Proof.
  unfold not_a_header.
  destruct (ascii_decode line) as [|c t] eqn:E; [discriminate|].
  rewrite !andb_true_iff, !negb_true_iff; intros [[[Hc Hv] Hw] Hf].
  apply is_value_text in Hv; rewrite E in Hv.
  repeat split; [exact Hv | | apply Hv; left; reflexivity].
  unfold headerRE; rewrite (ftext_colon_none _ Hc).
  cbn [app starts_wsp] in *; rewrite Hw, !orb_false_r.
  destruct (startswith N.eqb (c :: t ++ [10]) (u "From ")) eqn:F; [|reflexivity].
  apply (@startswith_snoc (u "From ") (c :: t) 10) in F; [congruence|].
  simpl; intuition discriminate.
Qed.

(** Well-formed header lines, a line that is no header, anything else:
    the parser keeps the entries of the former and leaves the rest as the
    payload. *)
Lemma parse_until_no_header (pre : list (bytes * bytes)) (bad tail : bytes) :
  forallb well_formed pre = true ->
  not_a_header bad = true ->
  parse (concat (map header_line pre) ++ bad ++ CRLF ++ tail)
  = Ok (close
          (mkMessage None (map entry pre)
             (ascii_decode bad ++ 10 :: universal_newlines (ascii_decode tail))
             [MissingHeaderBodySeparatorDefect])).
Proof.
  intros Hpre Hbad; apply not_a_header_line in Hbad as (Hnl & Hre & Hnlc).
  rewrite (@parse_block pre (bad ++ CRLF ++ tail)
             ((ascii_decode bad ++ [10])
                :: readlines (universal_newlines (ascii_decode tail)))
             [MissingHeaderBodySeparatorDefect] Hpre).
  - cbn [concat]; rewrite concat_readlines, <- app_assoc; reflexivity.
  - unfold ascii_decode; rewrite !map_app; cbn [map CRLF app].
    change (surrogateescape CR) with 13; change (surrogateescape LF) with 10.
    fold (ascii_decode bad); fold (ascii_decode tail).
    rewrite universal_newlines_line, readlines_line by assumption.
    cbn [header_section]; rewrite Hre, Hnlc; reflexivity.
Qed.

End NoHeader.

Section MessageFacts.

Context {S : Type} {stream : StreamReader S}.

(** [read_message] on a start line, fewer than [MAX_HEADERS] valid lines
    and the blank line: the outcome is that of the header parser. *)
Lemma read_message_terminated (s : S) (start : bytes) (hs : list bytes) (s' : S) :
  next_lines (length hs + 2) s = (start :: hs ++ [CRLF], s') ->
  valid_line start = true ->
  forallb header_line_ok hs = true ->
  length hs < MAX_HEADERS ->
  read_message s =
  (rbind (Email.parse (concat hs ++ CRLF)) (fun m => Ok (start, m)), s').
Proof.
  intros Hn Hstart Hok Hlt.
  replace (length hs + 2) with (Datatypes.S (length hs + 1)) in Hn by lia.
  apply next_lines_cons in Hn as [H1 H2].
  unfold read_message, bind.
  rewrite read_line_valid; rewrite H1; [|assumption].
  rewrite (@read_headers_terminated _ _ hs MAX_HEADERS [] _ s' H2 Hok Hlt).
  cbn [app]; unfold lift, ret.
  destruct (Email.parse (concat hs ++ CRLF)); reflexivity.
Qed.

(** C2, as the code has it.  A line without a colon does not make
    [read_message] fail: whatever the header lines hold, a start line,
    fewer than 256 valid lines and the blank line give a message.  When
    the start line is followed by well-formed header lines, then by a line
    that is no header, then by any valid lines and the blank line,
    [read_message] returns the start line and a message whose entries are
    those of the well-formed lines; the line and all that follows it end up
    in the payload, and the defect of a missing separator is recorded.
    [Email.close] adds the defect of a Content-Type of main type multipart
    when the entries hold one. *)
Theorem read_message_line_without_colon :
  (forall (s : S) (start : bytes) (hs : list bytes) (s' : S),
      next_lines (length hs + 2) s = (start :: hs ++ [CRLF], s') ->
      valid_line start = true ->
      forallb header_line_ok hs = true ->
      length hs < 256 ->
      exists m, read_message s = (Ok (start, m), s'))
  /\ (forall (s : S) (start : bytes) (pre : list (bytes * bytes))
             (bad : bytes) (post : list bytes) (s' : S),
         let hs := map header_line pre ++ (bad ++ CRLF) :: post in
         next_lines (length hs + 2) s = (start :: hs ++ [CRLF], s') ->
         valid_line start = true ->
         forallb header_line_ok hs = true ->
         length hs < 256 ->
         forallb well_formed pre = true ->
         not_a_header bad = true ->
         read_message s =
         (Ok (start,
              Email.close
                (Email.mkMessage None (map entry pre)
                   (Email.ascii_decode bad
                    ++ 10%N :: Email.universal_newlines
                                 (Email.ascii_decode (concat post ++ CRLF)))
                   [Email.MissingHeaderBodySeparatorDefect])),
          s')).
Proof.
  split.
  - intros s start hs s' Hn Hstart Hok Hlt.
    rewrite (@read_message_terminated s start hs s' Hn Hstart Hok Hlt).
    destruct (EmailFacts.parse_total (concat hs ++ CRLF)) as [m ->].
    exists m; reflexivity.
  - intros s start pre bad post s' hs Hn Hstart Hok Hlt Hpre Hbad.
    rewrite (@read_message_terminated s start hs s' Hn Hstart Hok Hlt).
    unfold hs; rewrite concat_app; cbn [concat].
    rewrite <- !app_assoc.
    rewrite (@NoHeader.parse_until_no_header pre bad _ Hpre Hbad); reflexivity.
Qed.

End MessageFacts.

(** C3, as the code has it.  A block of well-formed header lines and the
    blank line parses to one entry per line, in the order of the lines:
    the name as it is written, the value without its leading spaces and
    tabs and without the line terminator.  The message has no payload, and
    no defect but the one that [Email.close] adds for a Content-Type of main
    type multipart.  Whitespace at the end of a value is kept: the block of
    the example gives "example.com" for Host and "spaced " for X-Test. *)
Theorem parse_well_formed_block :
  (forall hs : list (bytes * bytes),
      forallb well_formed hs = true ->
      Email.parse (concat (map header_line hs) ++ CRLF)
      = Ok (Email.close (Email.mkMessage None (map entry hs) [] [])))
  /\ Email.parse (b "Host: example.com" ++ CRLF ++ b "X-Test:  spaced " ++ CRLF ++ CRLF)
     = Ok (Email.mkMessage None
             [(u "Host", u "example.com"); (u "X-Test", u "spaced ")] [] []).
Proof.
  split; [exact HeaderBlock.parse_headers_block | reflexivity].
Qed.

(** ** The start line: decoding and splitting *)

Module StartLine.

Local Open Scope N_scope.

Lemma utf8_decode_ascii_app (a c : bytes) :
  is_ascii a = true ->
  utf8_decode (a ++ c) = option_map (app (map Byte.to_N a)) (utf8_decode c).
Proof.
  induction a as [|x a IH]; cbn [is_ascii forallb app map].
  - intros _; destruct (utf8_decode c); reflexivity.
  - rewrite andb_true_iff; intros [Hx Ha].
    cbn [utf8_decode]; rewrite Hx, (IH Ha).
    destruct (utf8_decode c); reflexivity.
Qed.

Lemma utf8_decode_ascii (a : bytes) :
  is_ascii a = true -> utf8_decode a = Some (map Byte.to_N a).
Proof.
  intros H; rewrite <- (app_nil_r a) at 1.
  rewrite (@utf8_decode_ascii_app a [] H); simpl; rewrite app_nil_r; reflexivity.
Qed.

(** Decoding goes through a concatenation whose first part is valid. *)
Lemma utf8_decode_app (n : nat) :
  forall (a c : bytes) (t : str),
    (length a <= n)%nat ->
    utf8_decode a = Some t ->
    utf8_decode (a ++ c) = option_map (app t) (utf8_decode c).
Proof.
  induction n as [|n IH]; intros a c t Hlen Ha.
  - destruct a; [|simpl in Hlen; lia].
    injection Ha as <-; cbn [app]; destruct (utf8_decode c); reflexivity.
  - destruct a as [|b0 r0].
    { injection Ha as <-; cbn [app]; destruct (utf8_decode c); reflexivity. }
    cbn [app utf8_decode] in *.
    destruct (Byte.to_N b0 <? 128).
    { destruct (utf8_decode r0) as [t0|] eqn:E0; [|discriminate].
      injection Ha as <-; rewrite (IH r0 c t0) by (simpl in Hlen; lia || assumption).
      destruct (utf8_decode c); reflexivity. }
    destruct (Byte.to_N b0 <? 194); [discriminate|].
    destruct (Byte.to_N b0 <? 224).
    { destruct r0 as [|b1 r1]; [discriminate|]; cbn [app].
      destruct (is_cont (Byte.to_N b1)); [|discriminate].
      destruct (utf8_decode r1) as [t1|] eqn:E1; [|discriminate].
      injection Ha as <-; rewrite (IH r1 c t1) by (simpl in Hlen; lia || assumption).
      destruct (utf8_decode c); reflexivity. }
    destruct (Byte.to_N b0 <? 240).
    { destruct r0 as [|b1 [|b2 r2]]; try discriminate; cbn [app].
      destruct (in_range _ _ (Byte.to_N b1) && is_cont (Byte.to_N b2));
        [|discriminate].
      destruct (utf8_decode r2) as [t2|] eqn:E2; [|discriminate].
      injection Ha as <-; rewrite (IH r2 c t2) by (simpl in Hlen; lia || assumption).
      destruct (utf8_decode c); reflexivity. }
    destruct (Byte.to_N b0 <? 245); [|discriminate].
    destruct r0 as [|b1 [|b2 [|b3 r3]]]; try discriminate; cbn [app].
    destruct (in_range _ _ (Byte.to_N b1) && is_cont (Byte.to_N b2)
              && is_cont (Byte.to_N b3)); [|discriminate].
    destruct (utf8_decode r3) as [t3|] eqn:E3; [|discriminate].
    injection Ha as <-; rewrite (IH r3 c t3) by (simpl in Hlen; lia || assumption).
    destruct (utf8_decode c); reflexivity.
Qed.

Lemma skip_space_word (c : N) (r : str) :
  isspace c = false -> skip_space (c :: r) = c :: r.
Proof. intros H; cbn [skip_space]; rewrite H; reflexivity. Qed.

Lemma span_word_stop (w : str) (sp : N) (r : str) :
  (forall c, In c w -> isspace c = false) -> isspace sp = true ->
  span_word (w ++ sp :: r) = (w, sp :: r).
Proof.
  intros Hw Hsp; induction w as [|c w IH]; cbn [app span_word].
  - rewrite Hsp; reflexivity.
  - rewrite (Hw c) by (left; reflexivity).
    rewrite IH; [reflexivity|]; intros x Hx; apply Hw; right; assumption.
Qed.

Lemma span_word_fields (s : str) :
  (forall c, In c (fst (span_word s)) -> isspace c = false)
  /\ s = fst (span_word s) ++ snd (span_word s).
Proof.
  induction s as [|c s [IH1 IH2]]; cbn [span_word]; [simpl; tauto|].
  destruct (isspace c) eqn:E; [simpl; tauto|].
  destruct (span_word s) as [w rest]; cbn [fst snd] in *; split.
  - intros x [<- | Hx]; auto.
  - simpl; congruence.
Qed.

Lemma split_None_step (m : nat) (w : str) (sp : N) (r : str) :
  word w -> isspace sp = true ->
  split_None (Datatypes.S m) (w ++ sp :: r) = w :: split_None m (sp :: r).
Proof.
  intros [Hne Hw] Hsp; destruct w as [|c w]; [contradiction|].
  cbn [split_None app].
  rewrite skip_space_word by (apply Hw; left; reflexivity).
  change (c :: w ++ sp :: r) with ((c :: w) ++ sp :: r).
  rewrite span_word_stop by assumption; reflexivity.
Qed.

Lemma split_None_space (m : nat) (sp : N) (s : str) :
  isspace sp = true -> split_None m (sp :: s) = split_None m s.
Proof.
  intros Hsp; destruct m; cbn [split_None skip_space]; rewrite Hsp; reflexivity.
Qed.

Lemma split_None_last (c : N) (r : str) :
  isspace c = false -> split_None 0 (c :: r) = [c :: r].
Proof.
  intros Hc; cbn [split_None skip_space]; rewrite Hc; reflexivity.
Qed.

(** Two fields and a remainder that starts with a visible character:
    [split(None, 2)] gives the three of them, the remainder whole. *)
Lemma split_three (w1 w2 : str) (c : N) (r : str) :
  word w1 -> word w2 -> isspace c = false ->
  split_None 2 (w1 ++ 32 :: w2 ++ 32 :: c :: r) = [w1; w2; c :: r].
Proof.
  intros H1 H2 Hc.
  rewrite split_None_step, split_None_space by (assumption || reflexivity).
  rewrite split_None_step, split_None_space by (assumption || reflexivity).
  rewrite split_None_last by assumption.
  reflexivity.
Qed.

(** The fields that [split] cuts, all but the last when [maxsplit] is
    reached, are words. *)
Lemma split_None_head (m : nat) (s w : str) (fs : list str) :
  split_None (Datatypes.S m) s = w :: fs ->
  word w /\ exists rest, fs = split_None m rest.
Proof.
  cbn [split_None]; destruct (skip_space s) as [|c r] eqn:E; [discriminate|].
  assert (Hc : isspace c = false).
  { clear -E; induction s as [|x s IH]; [discriminate|].
    cbn [skip_space] in E; destruct (isspace x) eqn:X; [auto|].
    injection E as -> _; assumption. }
  pose proof (span_word_fields (c :: r)) as [Hw _].
  cbn [span_word] in *; rewrite Hc in *.
  destruct (span_word r) as [w0 rest]; cbn [fst] in Hw.
  intros H; injection H as <- <-; split; [split; [discriminate | exact Hw]|].
  eauto.
Qed.

(** Decoding gives no more characters than there are bytes. *)
Lemma utf8_decode_length (n : nat) :
  forall (bs : bytes) (t : str),
    (length bs <= n)%nat -> utf8_decode bs = Some t ->
    (length t <= length bs)%nat.
Proof.
  induction n as [|n IH]; intros bs t Hlen H.
  - destruct bs; [injection H as <-; simpl; lia | simpl in Hlen; lia].
  - destruct bs as [|b0 r0]; [injection H as <-; simpl; lia|].
    cbn [utf8_decode] in H; cbv zeta in H.
    repeat match type of H with
    | None = Some _ => discriminate H
    | (if ?c then _ else _) = Some _ => destruct c
    | match ?r with [] => _ | _ :: _ => _ end = Some _ =>
      destruct r; [discriminate H|]
    | option_map _ (utf8_decode ?r) = Some _ =>
      destruct (utf8_decode r) as [t'|] eqn:E; [|discriminate H];
      injection H as <-; apply IH in E; simpl in *; lia
    end.
Qed.

Lemma skip_space_length (s : str) : (length (skip_space s) <= length s)%nat.
Proof.
  induction s as [|c s IH]; cbn [skip_space]; [lia|].
  destruct (isspace c); simpl; lia.
Qed.

(** A field is no longer than the string it is cut from. *)
Lemma split_None_lengths (m : nat) :
  forall (s f : str), In f (split_None m s) -> (length f <= length s)%nat.
Proof.
  induction m as [|m IH]; intros s f; cbn [split_None];
    pose proof (skip_space_length s) as L;
    destruct (skip_space s) as [|c r]; try contradiction.
  - intros [<- | []]; exact L.
  - pose proof (span_word_fields (c :: r)) as [_ E].
    destruct (span_word (c :: r)) as [w rest]; cbn [fst snd] in E.
    apply (f_equal (@length N)) in E; rewrite length_app in E.
    intros [<- | Hf]; [lia|].
    apply IH in Hf; lia.
Qed.

End StartLine.

(** ** The status field: what a numeric field is *)

Module Status.

Import StartLine.
Local Open Scope N_scope.

Lemma is_decimal_Some (c : N) :
  is_decimal c = true -> exists d, decimal c = Some d.
Proof. unfold is_decimal; destruct (decimal c); [eauto | discriminate]. Qed.

Lemma digits_fold (s : str) :
  forall acc us v, digits acc us s = Some v -> v = digits_value acc s.
Proof.
  unfold digits_value.
  induction s as [|c s IH]; intros acc us v; cbn [digits fold_left].
  - destruct us; [discriminate | congruence].
  - destruct (decimal c); [apply IH|].
    destruct (c =? underscore); [|discriminate].
    destruct us; [discriminate | apply IH].
Qed.

Lemma digits_after_underscore (r : str) (acc : Z) :
  digit_groups r -> digits acc true r = digits acc false r.
Proof.
  intros G; destruct G as [d H | d r H _ | d r H _];
    apply is_decimal_Some in H as [n H]; cbn [digits]; rewrite H; reflexivity.
Qed.

Lemma groups_digits (r : str) :
  digit_groups r -> forall acc, exists v, digits acc false r = Some v.
Proof.
  induction 1 as [d Hd | d r Hd _ IH | d r Hd G IH]; intros acc;
    apply is_decimal_Some in Hd as [n Hd]; cbn [digits]; rewrite Hd.
  - eauto.
  - apply IH.
  - change (decimal underscore) with (@None N).
    rewrite N.eqb_refl, digits_after_underscore by assumption.
    apply IH.
Qed.

Lemma digits_groups (n : nat) :
  forall (s : str) (d : N) (acc : Z) (v : Z),
    (length s <= n)%nat -> is_decimal d = true ->
    digits acc false (d :: s) = Some v -> digit_groups (d :: s).
Proof.
  induction n as [|n IH]; intros s d acc v Hlen Hd H.
  - destruct s; [constructor; assumption | simpl in Hlen; lia].
  - destruct s as [|c s]; [constructor; assumption|].
    pose proof Hd as Hd'; apply is_decimal_Some in Hd' as [nd End].
    cbn [digits] in H; rewrite End in H.
    destruct (decimal c) as [nc|] eqn:Hc.
    + apply groups_digit; [assumption|].
      apply (IH s c (acc * 10 + Z.of_N nd)%Z v);
        [simpl in Hlen; lia | unfold is_decimal; rewrite Hc; reflexivity |].
      cbn [digits]; rewrite Hc; exact H.
    + destruct (N.eqb_spec c underscore) as [-> |]; [|discriminate].
      destruct s as [|c2 s2]; [discriminate|].
      cbn [digits] in H.
      destruct (decimal c2) as [n2|] eqn:Hc2.
      * apply groups_underscore; [assumption|].
        apply (IH s2 c2 (acc * 10 + Z.of_N nd)%Z v);
          [simpl in Hlen; lia | unfold is_decimal; rewrite Hc2; reflexivity |].
        cbn [digits]; rewrite Hc2; exact H.
      * destruct (c2 =? underscore); discriminate.
Qed.

Lemma groups_head (r : str) :
  digit_groups r -> exists d r', r = d :: r' /\ is_decimal d = true.
Proof. intros G; destruct G; eauto. Qed.

Lemma int_space_isspace (c : N) : int_space c = true -> isspace c = true.
Proof. unfold int_space; intros H; apply andb_true_iff in H as [H _]; exact H. Qed.

Lemma skip_int_space_head (c : N) (r : str) :
  isspace c = false -> skip_int_space (c :: r) = c :: r.
Proof.
  intros H; cbn [skip_int_space].
  destruct (int_space c) eqn:E; [|reflexivity].
  apply int_space_isspace in E; congruence.
Qed.

Lemma strip_word (st : str) :
  word st -> rstrip_int_space (skip_int_space st) = st.
Proof.
  intros [Hne Hw]; destruct st as [|c r]; [contradiction|].
  rewrite skip_int_space_head by (apply Hw; left; reflexivity).
  unfold rstrip_int_space.
  destruct (rev (c :: r)) as [|x t] eqn:E.
  - apply (f_equal (@rev N)) in E; rewrite rev_involutive in E; exact (eq_sym E).
  - rewrite skip_int_space_head.
    + rewrite <- E; apply rev_involutive.
    + apply Hw, in_rev; rewrite E; left; reflexivity.
Qed.

Lemma decimal_not_sign (d : N) :
  is_decimal d = true -> (d =? 43) = false /\ (d =? 45) = false.
Proof.
  intros H; split; apply N.eqb_neq; intros ->; vm_compute in H; discriminate H.
Qed.

Lemma count_decimal_max (s : str) :
  (length s <= int_max_str_digits)%nat ->
  (int_max_str_digits <? count_decimal s)%nat = false.
Proof.
  intros H; apply Nat.ltb_ge; unfold count_decimal.
  etransitivity; [apply filter_length_le | exact H].
Qed.

(** [int] on a field of at most [int_max_str_digits] characters: it
    succeeds on its literals and on them only, and gives the number they
    denote. *)
Lemma int_literal_spec (st : str) :
  word st ->
  (length st <= int_max_str_digits)%nat ->
  (int_literal st -> int st = Some (numeric_value st))
  /\ (forall v, int st = Some v -> int_literal st).
Proof.
  intros W L; unfold int; rewrite (strip_word W); split.
  - intros Hn; destruct Hn as [r G | r G | r G];
      [|assert (L' : (length r <= int_max_str_digits)%nat)
          by (simpl in L; lia) ..].
    + destruct (groups_head G) as (d & r' & -> & Hd).
      destruct (decimal_not_sign _ Hd) as [E1 E2].
      rewrite E1, E2.
      destruct (is_decimal_Some _ Hd) as [nd End]; rewrite End.
      destruct (groups_digits G 0%Z) as [v Hv]; rewrite Hv.
      rewrite (count_decimal_max _ L).
      unfold numeric_value; rewrite E2, <- (digits_fold _ _ _ Hv); reflexivity.
    + change (43 =? 43) with true; cbn iota.
      destruct (groups_head G) as (d & r' & -> & Hd).
      destruct (is_decimal_Some _ Hd) as [nd End]; rewrite End.
      destruct (groups_digits G 0%Z) as [v Hv]; rewrite Hv.
      rewrite (count_decimal_max _ L').
      unfold numeric_value; change (43 =? 45) with false; cbn iota.
      unfold digits_value; cbn [fold_left].
      change (decimal 43) with (@None N); cbn iota.
      rewrite (digits_fold _ _ _ Hv); reflexivity.
    + change (45 =? 43) with false; change (45 =? 45) with true; cbn iota.
      destruct (groups_head G) as (d & r' & -> & Hd).
      destruct (is_decimal_Some _ Hd) as [nd End]; rewrite End.
      destruct (groups_digits G 0%Z) as [v Hv]; rewrite Hv.
      rewrite (count_decimal_max _ L').
      unfold numeric_value; change (45 =? 45) with true; cbn iota.
      rewrite (digits_fold _ _ _ Hv); reflexivity.
  - intros v; destruct st as [|c r]; [discriminate|].
    destruct (N.eqb_spec c 43) as [-> | N43].
    { destruct r as [|d r']; [discriminate|].
      destruct (decimal d) as [nd|] eqn:Hd; [|discriminate].
      destruct (digits 0 false (d :: r')) as [v0|] eqn:Hv; [|discriminate].
      intros _; apply literal_plus.
      apply (@digits_groups (length r') r' d 0%Z v0); auto.
      unfold is_decimal; rewrite Hd; reflexivity. }
    destruct (N.eqb_spec c 45) as [-> | N45].
    { destruct r as [|d r']; [discriminate|].
      destruct (decimal d) as [nd|] eqn:Hd; [|discriminate].
      destruct (digits 0 false (d :: r')) as [v0|] eqn:Hv; [|discriminate].
      intros _; apply literal_minus.
      apply (@digits_groups (length r') r' d 0%Z v0); auto.
      unfold is_decimal; rewrite Hd; reflexivity. }
    destruct (decimal c) as [nc|] eqn:Hd; [|discriminate].
    destruct (digits 0 false (c :: r)) as [v0|] eqn:Hv; [|discriminate].
    intros _; apply literal_unsigned.
    apply (@digits_groups (length r) r c 0%Z v0); auto.
    unfold is_decimal; rewrite Hd; reflexivity.
Qed.

Lemma is_digit_decimal (c : N) :
  is_digit c = true -> decimal c = Some (c - 48).
Proof.
  unfold is_digit, in_range; intros H.
  unfold decimal, decimal_zeros; cbn [decimal_in].
  change (48 + 9) with 57; rewrite H; reflexivity.
Qed.

Lemma is_digit_not_space (c : N) : is_digit c = true -> isspace c = false.
Proof.
  unfold is_digit, in_range; intros H; apply andb_true_iff in H as [H1 H2].
  apply N.leb_le in H1, H2; unfold isspace, in_range.
  repeat (apply orb_false_iff; split);
    try (apply andb_false_iff;
         (left; apply N.leb_gt; lia) || (right; apply N.leb_gt; lia));
    apply N.eqb_neq; lia.
Qed.

Lemma all_digits_groups (r : str) : all_digits r -> digit_groups r.
Proof.
  intros [Hne H]; induction r as [|d r IH]; [contradiction|].
  assert (Hd : is_decimal d = true).
  { unfold is_decimal; rewrite (@is_digit_decimal d); [reflexivity|].
    apply H; left; reflexivity. }
  destruct r as [|d' r']; [apply groups_one; assumption|].
  apply groups_digit; [assumption|].
  apply IH; [discriminate | intros c Hc; apply H; right; exact Hc].
Qed.

(** A numeric field is a literal of [int]. *)
Lemma numeric_literal (r : str) : numeric r -> int_literal r.
Proof.
  intros H; destruct H as [r H | r H | r H];
    [apply literal_unsigned | apply literal_plus | apply literal_minus];
    apply all_digits_groups; exact H.
Qed.

(** A field of ASCII digits only: a literal, whose value is the number
    the digits write. *)
Lemma digits_field (st : str) :
  st <> [] -> forallb is_digit st = true ->
  word st /\ int_literal st /\ numeric_value st = digits_value 0 st.
Proof.
  intros Hne H; rewrite forallb_forall in H; repeat split.
  - assumption.
  - intros c Hc; apply is_digit_not_space; auto.
  - apply literal_unsigned, all_digits_groups; split; assumption.
  - destruct st as [|d r]; [contradiction|]; unfold numeric_value.
    assert (E : (d =? 45) = false).
    { apply N.eqb_neq; intros ->.
      specialize (H 45 (or_introl eq_refl)); discriminate H. }
    rewrite E; reflexivity.
Qed.

End Status.

(** ** The request and response readers *)

Section StartLineReaders.

Context {S : Type} {stream : StreamReader S}.

Import StartLine.

(** What [read_request] does once [read_message] has returned. *)
Lemma read_request_after (s s' : S) (line : bytes) (headers : Email.Message) :
  read_message s = (Ok (line, headers), s') ->
  read_request s =
  (rbind (decode (drop_last2 line)) (fun text =>
   rbind (unpack3 (split_None 2 text)) (fun '(method, uri, version) =>
   if negb (str_eqb method (u "GET")) then Raise UnsupportedMethod
   else if negb (str_eqb version (u "HTTP/1.1")) then Raise UnsupportedVersion
   else Ok (uri, headers))), s').
Proof.
  intros H; unfold read_request, bind; rewrite H; unfold lift.
  destruct (decode (drop_last2 line)) as [text|e]; [|reflexivity]; cbn [rbind].
  destruct (unpack3 (split_None 2 text)) as [[[method uri] version]|e];
    [|reflexivity]; cbn [rbind].
  destruct (negb (str_eqb method (u "GET"))); [reflexivity|].
  destruct (negb (str_eqb version (u "HTTP/1.1"))); reflexivity.
Qed.

(** What [read_response] does once [read_message] has returned. *)
Lemma read_response_after (s s' : S) (line : bytes) (headers : Email.Message) :
  read_message s = (Ok (line, headers), s') ->
  read_response s =
  (rbind (decode (drop_last2 line)) (fun text =>
   rbind (unpack3 (split_None 2 text)) (fun '(version, status, reason) =>
   if negb (str_eqb version (u "HTTP/1.1")) then Raise UnsupportedVersion
   else rbind (to_int status) (fun status => Ok (status, headers)))), s').
Proof.
  intros H; unfold read_response, bind; rewrite H; unfold lift.
  destruct (decode (drop_last2 line)) as [text|e]; [|reflexivity]; cbn [rbind].
  destruct (unpack3 (split_None 2 text)) as [[[version status] reason]|e];
    [|reflexivity]; cbn [rbind].
  destruct (negb (str_eqb version (u "HTTP/1.1"))); [reflexivity|].
  destruct (to_int status); reflexivity.
Qed.

(** The start line that [read_message] returns went through [read_line]. *)
Lemma read_message_line (s s' : S) (line : bytes) (headers : Email.Message) :
  read_message s = (Ok (line, headers), s') -> valid_line line = true.
Proof.
  unfold read_message, bind; intros H.
  destruct (read_line s) as [[l|e] s1] eqn:R; [|discriminate H].
  apply read_line_Ok in R as [_ V].
  destruct (read_headers MAX_HEADERS [] s1) as [[raw|e] s2]; [|discriminate H].
  unfold lift, ret in H.
  destruct (Email.parse raw); [|discriminate H].
  injection H as <- _ _; exact V.
Qed.

(** No field of the start line is longer than a line. *)
Lemma field_length
    (s s' : S) (line : bytes) (headers : Email.Message) (text : str)
    (m : nat) (f : str) :
  read_message s = (Ok (line, headers), s') ->
  decode (drop_last2 line) = Ok text ->
  In f (split_None m text) -> length f <= MAX_LINE.
Proof.
  intros Hm Hd Hf; apply read_message_line in Hm.
  unfold valid_line in Hm; apply andb_true_iff in Hm as [Hl _].
  apply Nat.leb_le in Hl; unfold decode in Hd.
  destruct (utf8_decode (drop_last2 line)) as [t|] eqn:E; [|discriminate Hd].
  injection Hd as ->.
  apply (@utf8_decode_length _ _ _ (le_n _)) in E.
  apply split_None_lengths in Hf.
  unfold drop_last2 in E; rewrite length_firstn in E; lia.
Qed.

(** C8.  With a start line of three fields, [read_request] raises
    "Unsupported method" when the first field is not GET, and "Unsupported
    HTTP version" when it is GET and the third field is not HTTP/1.1. *)
Theorem read_request_unsupported
    (s s' : S) (line : bytes) (headers : Email.Message)
    (text method uri version : str) :
  read_message s = (Ok (line, headers), s') ->
  decode (drop_last2 line) = Ok text ->
  split_None 2 text = [method; uri; version] ->
  (method <> u "GET" -> read_request s = (Raise UnsupportedMethod, s'))
  /\ (method = u "GET" -> version <> u "HTTP/1.1" ->
      read_request s = (Raise UnsupportedVersion, s')).
Proof.
  intros Hm Hd Hs; rewrite (read_request_after _ Hm), Hd; cbn [rbind].
  rewrite Hs; cbn [unpack3 rbind]; split.
  - intros Hne; apply str_eqb_neq in Hne; rewrite Hne; reflexivity.
  - intros -> Hne; apply str_eqb_neq in Hne; rewrite Hne; reflexivity.
Qed.

(** C9, as the code has it.  With a status line of three fields whose
    first is HTTP/1.1, [read_response] returns the integer that the status
    field denotes when the field is a literal of [int]: decimal digits of
    any script, which single underscores may separate, with or without a
    sign.  It raises the [ValueError] of [int] exactly when the field is no
    such literal.  A numeric field is a literal, so that its integer is
    returned, whatever the integer. *)
Theorem read_response_status
    (s s' : S) (line : bytes) (headers : Email.Message)
    (text status reason : str) :
  read_message s = (Ok (line, headers), s') ->
  decode (drop_last2 line) = Ok text ->
  split_None 2 text = [u "HTTP/1.1"; status; reason] ->
  (int_literal status ->
   read_response s = (Ok (numeric_value status, headers), s'))
  /\ (read_response s = (Raise InvalidStatus, s') <-> ~ int_literal status)
  /\ (numeric status ->
      read_response s = (Ok (numeric_value status, headers), s')).
Proof.
  intros Hm Hd Hs; rewrite (read_response_after _ Hm), Hd; cbn [rbind].
  rewrite Hs; cbn [unpack3 rbind].
  change (negb (str_eqb (u "HTTP/1.1") (u "HTTP/1.1"))) with false; cbn iota.
  assert (W : word status).
  { apply split_None_head in Hs as [_ [rest Hs]].
    symmetry in Hs; apply split_None_head in Hs as [W _]; exact W. }
  assert (L : length status <= int_max_str_digits).
  { change int_max_str_digits with 4300.
    assert (L : length status <= MAX_LINE)
      by (apply (@field_length s s' line headers text 2 status Hm Hd);
          rewrite Hs; simpl; auto).
    unfold MAX_LINE in L; lia. }
  destruct (Status.int_literal_spec W L) as [H1 H2]; unfold to_int.
  assert (R : int_literal status ->
              (rbind match int status with
                     | Some n => Ok n
                     | None => Raise InvalidStatus
                     end (fun status0 : Z => Ok (status0, headers)), s')
              = (Ok (numeric_value status, headers), s'))
    by (intros Hn; rewrite (H1 Hn); reflexivity).
  split; [exact R | split; [|intros Hn; apply R, Status.numeric_literal, Hn]].
  destruct (int status) as [v|] eqn:E; cbn [rbind]; split.
  - discriminate.
  - intros Hn; exfalso; apply Hn, (H2 v); reflexivity.
  - intros _ Hn; specialize (H1 Hn); discriminate.
  - reflexivity.
Qed.

(** C10.  When the start line, without its CRLF, splits into fewer than
    three fields, both readers fail in the unpacking of the fields, with an
    error that is none of "Unsupported method", "Unsupported HTTP version"
    or the error of [int].  The status line "HTTP/1.1 200 " has two fields
    only, and the request line "GET /" as well. *)
Theorem start_line_too_short
    (s s' : S) (line : bytes) (headers : Email.Message) (text : str) :
  read_message s = (Ok (line, headers), s') ->
  decode (drop_last2 line) = Ok text ->
  (length (split_None 2 text) < 3 ->
   read_request s = (Raise UnpackError, s')
   /\ read_response s = (Raise UnpackError, s'))
  /\ (line = b "HTTP/1.1 200 " ++ CRLF ->
      split_None 2 text = [u "HTTP/1.1"; u "200"]
      /\ read_response s = (Raise UnpackError, s'))
  /\ (line = b "GET /" ++ CRLF ->
      split_None 2 text = [u "GET"; u "/"]
      /\ read_request s = (Raise UnpackError, s')).
Proof.
  intros Hm Hd.
  rewrite (read_request_after _ Hm), (read_response_after _ Hm), Hd.
  cbn [rbind]; split; [|split].
  - intros Hlen.
    destruct (split_None 2 text) as [|f1 [|f2 [|f3 [|f4 fs]]]];
      try (split; reflexivity); simpl in Hlen; lia.
  - intros ->; vm_compute in Hd; injection Hd as <-; split; reflexivity.
  - intros ->; vm_compute in Hd; injection Hd as <-; split; reflexivity.
Qed.

End StartLineReaders.

(** ** Valid requests and responses *)

Section ValidMessages.

Context {S : Type} {stream : StreamReader S}.

Import StartLine.

Lemma header_lines_ok (hs : list (bytes * bytes)) :
  forallb well_formed hs = true -> within_limit hs = true ->
  forallb header_line_ok (map header_line hs) = true.
Proof.
  unfold within_limit; induction hs as [|h hs IH]; [reflexivity|].
  cbn [forallb map]; rewrite !andb_true_iff.
  intros [Hh Hwf] [Hlen Hlim]; split; [|auto].
  unfold header_line_ok, valid_line; rewrite Hlen; cbn [andb].
  apply andb_true_iff; split.
  - apply endswith_bytes; exists (fst h ++ b ":" ++ snd h).
    unfold header_line; rewrite <- !app_assoc; reflexivity.
  - apply negb_true_iff, bytes_eqb_neq; intros E.
    apply (f_equal (@length byte)) in E; unfold header_line in E.
    rewrite !length_app in E; simpl in E; lia.
Qed.

(** [read_message] on a start line, well-formed header lines within the
    limits and the blank line. *)
Lemma read_message_valid (s : S) (start : bytes) (hs : list (bytes * bytes)) (s' : S) :
  next_lines (length hs + 2) s
  = ((start ++ CRLF) :: map header_line hs ++ [CRLF], s') ->
  length (start ++ CRLF) <= MAX_LINE ->
  forallb well_formed hs = true ->
  within_limit hs = true ->
  length hs < MAX_HEADERS ->
  read_message s
  = (Ok (start ++ CRLF,
         Email.close (Email.mkMessage None (map entry hs) [] [])), s').
Proof.
  intros Hn Hlen Hwf Hlim Hcount.
  rewrite <- (length_map header_line) in Hn, Hcount.
  rewrite (@read_message_terminated S stream s (start ++ CRLF)
             (map header_line hs) s' Hn).
  - rewrite (HeaderBlock.parse_headers_block _ Hwf); reflexivity.
  - unfold valid_line; apply andb_true_iff; split.
    + apply Nat.leb_le; assumption.
    + apply endswith_bytes; eauto.
  - apply header_lines_ok; assumption.
  - assumption.
Qed.

Lemma next_lines_app (n m : nat) (s : S) :
  next_lines (n + m) s
  = (fst (next_lines n s) ++ fst (next_lines m (snd (next_lines n s))),
     snd (next_lines m (snd (next_lines n s)))).
Proof.
  revert s; induction n as [|n IH]; intros s; cbn [Nat.add next_lines].
  - cbn [fst snd app]; destruct (next_lines m s); reflexivity.
  - destruct (readline s) as [l s1]; rewrite IH.
    destruct (next_lines n s1) as [ls s2]; reflexivity.
Qed.

Lemma forallb_firstn (A : Type) (f : A -> bool) (n : nat) (l : list A) :
  forallb f l = true -> forallb f (firstn n l) = true.
Proof.
  intros H; rewrite <- (firstn_skipn n l), forallb_app in H.
  apply andb_true_iff in H as [H _]; exact H.
Qed.

(** [read_message] on a start line followed by [MAX_HEADERS] well-formed
    header lines or more: the loop runs out of iterations before it meets
    the blank line. *)
Lemma read_message_too_many (s : S) (start : bytes) (hs : list (bytes * bytes)) (s' : S) :
  next_lines (length hs + 2) s
  = ((start ++ CRLF) :: map header_line hs ++ [CRLF], s') ->
  length (start ++ CRLF) <= MAX_LINE ->
  forallb well_formed hs = true ->
  within_limit hs = true ->
  MAX_HEADERS <= length hs ->
  read_message s = (Raise TooManyHeaders, snd (next_lines 257 s)).
Proof.
  unfold MAX_HEADERS at 1; intros Hn Hlen Hwf Hlim Hcount.
  replace (length hs + 2) with (257 + (length hs - 255)) in Hn by lia.
  rewrite next_lines_app in Hn.
  pose proof (next_lines_length 257 s) as L.
  destruct (next_lines 257 s) as [l s1] eqn:E; cbn [fst snd] in *.
  injection Hn as Hl _.
  assert (El : l = (start ++ CRLF) :: firstn 256 (map header_line hs)).
  { apply (f_equal (firstn 257)) in Hl.
    rewrite firstn_app, L, Nat.sub_diag, firstn_O, app_nil_r in Hl.
    rewrite firstn_all2 in Hl by lia; rewrite Hl.
    rewrite (firstn_cons 256); f_equal; rewrite firstn_app.
    replace (256 - length (map header_line hs)) with 0
      by (rewrite length_map; lia).
    rewrite firstn_O, app_nil_r; reflexivity. }
  subst l; apply next_lines_cons in E as [H1 H2].
  unfold read_message, bind.
  rewrite read_line_valid; rewrite H1;
    [|unfold valid_line; apply andb_true_iff; split;
      [apply Nat.leb_le; assumption | apply endswith_bytes; eauto]].
  change MAX_HEADERS with 256.
  rewrite (@read_headers_exhausted S stream (firstn 256 (map header_line hs))
             256 [] _ s1 H2); [reflexivity|].
  apply forallb_firstn, header_lines_ok; assumption.
Qed.

(** C6.  A request made of the line "GET target HTTP/1.1", of well-formed
    header lines and of the blank line, every line within [MAX_LINE], the
    target not empty and without whitespace.  With fewer than 256 header
    lines [read_request] returns the target, decoded and otherwise as it
    was sent, and the entries of the header lines in the order of the
    lines.  With 256 header lines or more it raises "Too many headers":
    the loop of [read_message] has [MAX_HEADERS] iterations and the blank
    line needs one of them, so a request of exactly [MAX_HEADERS] header
    lines is refused. *)
Theorem read_request_valid
    (s : S) (target : bytes) (uri : str) (hs : list (bytes * bytes)) (s' : S) :
  next_lines (length hs + 2) s
  = (request_line target :: map header_line hs ++ [CRLF], s') ->
  length (request_line target) <= 4096 ->
  utf8_decode target = Some uri ->
  uri <> [] ->
  forallb (fun c => negb (isspace c)) uri = true ->
  forallb well_formed hs = true ->
  within_limit hs = true ->
  (length hs < 256 ->
   read_request s
   = (Ok (uri, Email.close (Email.mkMessage None (map entry hs) [] [])), s'))
  /\ (256 <= length hs ->
      read_request s = (Raise TooManyHeaders, snd (next_lines 257 s))).
Proof.
  intros Hn Hlen Ht Hne Hsp Hwf Hlim.
  unfold request_line in *; split; intros Hcount.
  - rewrite (@read_request_after S stream s s' _ _
               (@read_message_valid s _ hs s' Hn Hlen Hwf Hlim Hcount)).
    rewrite drop_last2_CRLF; unfold decode.
    rewrite (@utf8_decode_ascii_app (b "GET ")) by reflexivity.
    rewrite (@utf8_decode_app (length target) target _ uri (le_n _) Ht).
    change (utf8_decode (b " HTTP/1.1")) with (Some (u " HTTP/1.1")).
    cbn [option_map rbind].
    change (map Byte.to_N (b "GET ") ++ uri ++ u " HTTP/1.1")
      with (u "GET" ++ 32%N :: uri ++ 32%N :: 72%N :: u "TTP/1.1").
    rewrite split_three.
    + reflexivity.
    + split; [discriminate|]; simpl; intuition (subst; reflexivity).
    + split; [assumption|]; rewrite forallb_forall in Hsp.
      intros c Hc; apply negb_true_iff; auto.
    + reflexivity.
  - unfold read_request, bind.
    rewrite (@read_message_too_many s _ hs s' Hn Hlen Hwf Hlim Hcount).
    reflexivity.
Qed.

(** C7.  A response made of the line "HTTP/1.1 status reason", of
    well-formed header lines and of the blank line, every line within
    [MAX_LINE], the status written with digits and the reason starting
    with a visible character.  The line splits into exactly the version,
    the status and the whole reason, spaces included.  With fewer than 256
    header lines [read_response] returns the number that the digits write
    together with the entries of the header lines; with 256 header lines
    or more it raises "Too many headers", the blank line needing one of
    the [MAX_HEADERS] iterations of the loop of [read_message].  So
    "HTTP/1.1 101 Switching Protocols" has the reason
    "Switching Protocols". *)
Theorem read_response_valid :
  (forall (s : S) (status reason : bytes) (c : N) (r : str)
          (hs : list (bytes * bytes)) (s' : S),
      next_lines (length hs + 2) s
      = (status_line status reason :: map header_line hs ++ [CRLF], s') ->
      length (status_line status reason) <= 4096 ->
      status <> [] ->
      forallb (fun d => is_digit (Byte.to_N d)) status = true ->
      utf8_decode reason = Some (c :: r) ->
      isspace c = false ->
      forallb well_formed hs = true ->
      within_limit hs = true ->
      (exists text,
          decode (drop_last2 (status_line status reason)) = Ok text
          /\ split_None 2 text = [u "HTTP/1.1"; map Byte.to_N status; c :: r])
      /\ (length hs < 256 ->
          read_response s
          = (Ok (digits_value 0 (map Byte.to_N status),
                 Email.close (Email.mkMessage None (map entry hs) [] [])), s'))
      /\ (256 <= length hs ->
          read_response s = (Raise TooManyHeaders, snd (next_lines 257 s))))
  /\ split_None 2 (u "HTTP/1.1 101 Switching Protocols")
     = [u "HTTP/1.1"; u "101"; u "Switching Protocols"].
Proof.
  split; [|reflexivity].
  intros s status reason c r hs s' Hn Hlen Hne Hdig Hr Hc Hwf Hlim.
  unfold status_line in *.
  assert (Hst : forallb is_digit (map Byte.to_N status) = true).
  { rewrite forallb_forall in *; intros x Hx.
    apply in_map_iff in Hx as (d & <- & Hd); auto. }
  assert (Hne' : map Byte.to_N status <> []) by (destruct status; [contradiction | discriminate]).
  destruct (Status.digits_field Hne' Hst) as (W & Hnum & Hval).
  assert (Hascii : is_ascii status = true).
  { unfold is_ascii; rewrite forallb_forall in *; intros d Hd.
    specialize (Hdig d Hd); unfold is_digit, in_range in Hdig.
    apply andb_true_iff in Hdig as [_ H2]; apply N.leb_le in H2.
    apply N.ltb_lt; lia. }
  assert (Hdec : decode (drop_last2 ((b "HTTP/1.1 " ++ status ++ b " " ++ reason) ++ CRLF))
                 = Ok (u "HTTP/1.1" ++ 32%N :: map Byte.to_N status ++ 32%N :: c :: r)).
  { rewrite drop_last2_CRLF; unfold decode.
    rewrite (@utf8_decode_ascii_app (b "HTTP/1.1 ")) by reflexivity.
    rewrite (@utf8_decode_ascii_app status) by assumption.
    rewrite (@utf8_decode_ascii_app (b " ")) by reflexivity.
    rewrite Hr; reflexivity. }
  assert (Hsplit : split_None 2 (u "HTTP/1.1" ++ 32%N :: map Byte.to_N status ++ 32%N :: c :: r)
                   = [u "HTTP/1.1"; map Byte.to_N status; c :: r]).
  { apply split_three; [|assumption|assumption].
    split; [discriminate|]; simpl; intuition (subst; reflexivity). }
  split; [eauto | split; intros Hcount].
  - rewrite (@read_response_after S stream s s' _ _
               (@read_message_valid s _ hs s' Hn Hlen Hwf Hlim Hcount)).
    rewrite Hdec; cbn [rbind]; rewrite Hsplit; cbn [unpack3 rbind].
    change (negb (str_eqb (u "HTTP/1.1") (u "HTTP/1.1"))) with false; cbn iota.
    assert (L : length (map Byte.to_N status) <= int_max_str_digits).
    { change int_max_str_digits with 4300.
      rewrite length_map; rewrite !length_app in Hlen; lia. }
    unfold to_int; rewrite (proj1 (Status.int_literal_spec W L) Hnum); cbn [rbind].
    rewrite Hval; reflexivity.
  - unfold read_response, bind.
    rewrite (@read_message_too_many s _ hs s' Hn Hlen Hwf Hlim Hcount).
    reflexivity.
Qed.

End ValidMessages.

(** ** The theorems at concrete streams *)

Lemma read_line_length_limit_witness :
  read_line (mkBuffer (repeat x61 4094 ++ CRLF))
  = (Ok (repeat x61 4094 ++ CRLF), mkBuffer [])
  /\ read_line (mkBuffer (repeat x61 4097)) = (Raise LineTooLong, mkBuffer []).
Proof.
  split.
  - apply (proj1 (@read_line_length_limit Buffer Buffer_reader
                    (mkBuffer (repeat x61 4094 ++ CRLF))
                    (repeat x61 4094 ++ CRLF) (mkBuffer [])
                    ltac:(vm_compute; reflexivity)));
      [vm_compute; reflexivity | exists (repeat x61 4094); reflexivity].
  - apply (proj2 (@read_line_length_limit Buffer Buffer_reader
                    (mkBuffer (repeat x61 4097))
                    (repeat x61 4097) (mkBuffer [])
                    ltac:(vm_compute; reflexivity))).
    vm_compute; reflexivity.
Defined.

Lemma read_line_terminator_witness :
  read_line (mkBuffer (b "Host: example.com" ++ [LF]))
  = (Raise MissingTerminator, mkBuffer [])
  /\ read_line (mkBuffer []) = (Raise MissingTerminator, mkBuffer []).
Proof.
  split.
  - apply (proj1 (@read_line_terminator Buffer Buffer_reader
                    (mkBuffer (b "Host: example.com" ++ [LF]))
                    (b "Host: example.com" ++ [LF]) (mkBuffer [])
                    ltac:(vm_compute; reflexivity))).
    + vm_compute; lia.
    + intros H; apply endswith_bytes in H; vm_compute in H; discriminate H.
  - apply (proj1 (@read_line_terminator Buffer Buffer_reader (mkBuffer []) [] (mkBuffer [])
                    ltac:(vm_compute; reflexivity))).
    + vm_compute; lia.
    + intros H; apply endswith_bytes in H; vm_compute in H; discriminate H.
Defined.

Lemma read_message_256_headers_witness :
  read_message block_of_256 = (Raise TooManyHeaders, mkBuffer CRLF).
Proof.
  apply (@read_message_256_headers Buffer Buffer_reader block_of_256
           (request_line (b "/")) (repeat (header_line (b "a", b " b")) 256));
    vm_compute; reflexivity.
Defined.

Lemma read_message_line_without_colon_witness :
  (exists m,
      read_message block_without_colon
      = (Ok (request_line (b "/"), m), mkBuffer []))
  /\ read_message block_without_colon
     = (Ok (request_line (b "/"),
            Email.mkMessage None [(u "Host", u "example.com")]
              (u "no colon here" ++ [10%N] ++ u "X: y" ++ [10%N; 10%N])
              [Email.MissingHeaderBodySeparatorDefect]),
        mkBuffer []).
Proof.
  split.
  - apply (proj1 (@read_message_line_without_colon Buffer Buffer_reader)
             block_without_colon
             (request_line (b "/"))
             [header_line (b "Host", b " example.com");
              b "no colon here" ++ CRLF;
              header_line (b "X", b " y")]
             (mkBuffer []));
      vm_compute; (reflexivity || lia).
  - apply (proj2 (@read_message_line_without_colon Buffer Buffer_reader)
             block_without_colon
             (request_line (b "/")) [(b "Host", b " example.com")]
             (b "no colon here") [header_line (b "X", b " y")] (mkBuffer []));
      vm_compute; (reflexivity || lia).
Defined.

(** The stream [block_without_colon]: the line without a colon raises no
    error, and a header collection is returned. *)
Lemma line_without_colon_accepted :
  ~ (exists e, fst (read_message block_without_colon) = Raise e)
  /\ exists m, fst (read_message block_without_colon)
               = Ok (request_line (b "/"), m)
               /\ Email._headers m = [(u "Host", u "example.com")].
Proof.
  split.
  - intros [e H]; vm_compute in H; discriminate H.
  - eexists; split; vm_compute; reflexivity.
Qed.

Lemma parse_well_formed_block_witness :
  Email.parse (concat (map header_line
                         [(b "Host", b " example.com"); (b "X-Test", b "  spaced ")])
               ++ CRLF)
  = Ok (Email.mkMessage None
          (map entry [(b "Host", b " example.com"); (b "X-Test", b "  spaced ")])
          [] []).
Proof.
  apply (proj1 parse_well_formed_block); vm_compute; reflexivity.
Defined.

(** The block of the example: the value of X-Test keeps its final space,
    it is not "spaced". *)
Lemma trailing_space_kept :
  ~ (exists m,
        Email.parse (b "Host: example.com" ++ CRLF ++ b "X-Test:  spaced " ++ CRLF ++ CRLF)
        = Ok m
        /\ Email._headers m = [(u "Host", u "example.com"); (u "X-Test", u "spaced")]).
Proof.
  intros [m [H1 H2]]; vm_compute in H1; injection H1 as <-.
  vm_compute in H2; discriminate H2.
Qed.

(** A Content-Type of main type multipart among the headers: the entries
    are as for any header, and the parser records the defect, the payload
    being no list of parts. *)
Lemma parse_multipart_defect :
  Email.parse (b "Host: example.com" ++ CRLF
               ++ b "content-type: MULTIPART/form-data; boundary=x" ++ CRLF ++ CRLF)
  = Ok (Email.mkMessage None
          [(u "Host", u "example.com");
           (u "content-type", u "MULTIPART/form-data; boundary=x")]
          [] [Email.MultipartInvariantViolationDefect]).
Proof. vm_compute; reflexivity. Qed.

Lemma read_request_valid_witness :
  read_request sample_request
  = (Ok (u "/chat?room=1",
         Email.mkMessage None
           [(u "Host", u "example.com"); (u "Upgrade", u "websocket")] [] []),
     mkBuffer (b "tail"))
  /\ read_request block_of_256 = (Raise TooManyHeaders, mkBuffer CRLF).
Proof.
  split.
  - apply (proj1 (@read_request_valid Buffer Buffer_reader sample_request
                    (b "/chat?room=1") (u "/chat?room=1")
                    [(b "Host", b " example.com"); (b "Upgrade", b " websocket")]
                    (mkBuffer (b "tail"))
                    ltac:(vm_compute; reflexivity) ltac:(vm_compute; lia)
                    ltac:(vm_compute; reflexivity) ltac:(discriminate)
                    ltac:(vm_compute; reflexivity) ltac:(vm_compute; reflexivity)
                    ltac:(vm_compute; reflexivity))).
    vm_compute; lia.
  - transitivity (Raise (A := str * Email.Message) TooManyHeaders,
                  snd (next_lines 257 block_of_256));
      [|vm_compute; reflexivity].
    apply (proj2 (@read_request_valid Buffer Buffer_reader block_of_256
                    (b "/") (u "/") (repeat (b "a", b " b") 256) (mkBuffer [])
                    ltac:(vm_compute; reflexivity) ltac:(vm_compute; lia)
                    ltac:(vm_compute; reflexivity) ltac:(discriminate)
                    ltac:(vm_compute; reflexivity) ltac:(vm_compute; reflexivity)
                    ltac:(vm_compute; reflexivity))).
    vm_compute; lia.
Defined.

Lemma read_response_valid_witness :
  (exists text,
      decode (drop_last2 (status_line (b "101") (b "Switching Protocols")))
      = Ok text
      /\ split_None 2 text
         = [u "HTTP/1.1"; u "101"; u "Switching Protocols"])
  /\ read_response sample_response
     = (Ok (101%Z, Email.mkMessage None [(u "Upgrade", u "websocket")] [] []),
        mkBuffer [])
  /\ read_response response_of_256 = (Raise TooManyHeaders, mkBuffer CRLF).
Proof.
  split; [|split].
  - apply (proj1 (proj1 (@read_response_valid Buffer Buffer_reader)
                    sample_response
                    (b "101") (b "Switching Protocols") 83%N (u "witching Protocols")
                    [(b "Upgrade", b " websocket")] (mkBuffer [])
                    ltac:(vm_compute; reflexivity) ltac:(vm_compute; lia)
                    ltac:(discriminate) ltac:(vm_compute; reflexivity)
                    ltac:(vm_compute; reflexivity) ltac:(vm_compute; reflexivity)
                    ltac:(vm_compute; reflexivity) ltac:(vm_compute; reflexivity))).
  - apply (proj1 (proj2 (proj1 (@read_response_valid Buffer Buffer_reader)
                    sample_response
                    (b "101") (b "Switching Protocols") 83%N (u "witching Protocols")
                    [(b "Upgrade", b " websocket")] (mkBuffer [])
                    ltac:(vm_compute; reflexivity) ltac:(vm_compute; lia)
                    ltac:(discriminate) ltac:(vm_compute; reflexivity)
                    ltac:(vm_compute; reflexivity) ltac:(vm_compute; reflexivity)
                    ltac:(vm_compute; reflexivity) ltac:(vm_compute; reflexivity)))).
    vm_compute; lia.
  - transitivity (Raise (A := Z * Email.Message) TooManyHeaders,
                  snd (next_lines 257 response_of_256));
      [|vm_compute; reflexivity].
    apply (proj2 (proj2 (proj1 (@read_response_valid Buffer Buffer_reader)
                    response_of_256
                    (b "101") (b "Switching Protocols") 83%N (u "witching Protocols")
                    (repeat (b "a", b " b") 256) (mkBuffer [])
                    ltac:(vm_compute; reflexivity) ltac:(vm_compute; lia)
                    ltac:(discriminate) ltac:(vm_compute; reflexivity)
                    ltac:(vm_compute; reflexivity) ltac:(vm_compute; reflexivity)
                    ltac:(vm_compute; reflexivity) ltac:(vm_compute; reflexivity)))).
    vm_compute; lia.
Defined.

Lemma read_request_unsupported_witness :
  read_request (mkBuffer (b "POST /chat HTTP/1.1" ++ CRLF ++ CRLF))
  = (Raise UnsupportedMethod, mkBuffer [])
  /\ read_request (mkBuffer (b "GET /chat HTTP/1.0" ++ CRLF ++ CRLF))
     = (Raise UnsupportedVersion, mkBuffer []).
Proof.
  split.
  - apply (proj1 (@read_request_unsupported Buffer Buffer_reader
                    (mkBuffer (b "POST /chat HTTP/1.1" ++ CRLF ++ CRLF))
                    (mkBuffer []) (b "POST /chat HTTP/1.1" ++ CRLF)
                    (Email.mkMessage None [] [] [])
                    (u "POST /chat HTTP/1.1") (u "POST") (u "/chat") (u "HTTP/1.1")
                    ltac:(vm_compute; reflexivity) ltac:(vm_compute; reflexivity)
                    ltac:(vm_compute; reflexivity))).
    discriminate.
  - apply (proj2 (@read_request_unsupported Buffer Buffer_reader
                    (mkBuffer (b "GET /chat HTTP/1.0" ++ CRLF ++ CRLF))
                    (mkBuffer []) (b "GET /chat HTTP/1.0" ++ CRLF)
                    (Email.mkMessage None [] [] [])
                    (u "GET /chat HTTP/1.0") (u "GET") (u "/chat") (u "HTTP/1.0")
                    ltac:(vm_compute; reflexivity) ltac:(vm_compute; reflexivity)
                    ltac:(vm_compute; reflexivity)));
      [reflexivity | discriminate].
Defined.

Lemma read_response_status_witness :
  read_response (mkBuffer (b "HTTP/1.1 999 Whatever" ++ CRLF ++ CRLF))
  = (Ok (999%Z, Email.mkMessage None [] [] []), mkBuffer [])
  /\ read_response (mkBuffer (b "HTTP/1.1 abc OK" ++ CRLF ++ CRLF))
     = (Raise InvalidStatus, mkBuffer [])
  /\ read_response (mkBuffer (b "HTTP/1.1 -1 Below" ++ CRLF ++ CRLF))
     = (Ok ((-1)%Z, Email.mkMessage None [] [] []), mkBuffer []).
Proof.
  split; [|split].
  - apply (proj1 (@read_response_status Buffer Buffer_reader
                    (mkBuffer (b "HTTP/1.1 999 Whatever" ++ CRLF ++ CRLF))
                    (mkBuffer []) (b "HTTP/1.1 999 Whatever" ++ CRLF)
                    (Email.mkMessage None [] [] [])
                    (u "HTTP/1.1 999 Whatever") (u "999") (u "Whatever")
                    ltac:(vm_compute; reflexivity) ltac:(vm_compute; reflexivity)
                    ltac:(vm_compute; reflexivity))).
    apply literal_unsigned; do 2 (apply groups_digit; [reflexivity|]).
    apply groups_one; reflexivity.
  - apply (proj1 (proj2 (@read_response_status Buffer Buffer_reader
                    (mkBuffer (b "HTTP/1.1 abc OK" ++ CRLF ++ CRLF))
                    (mkBuffer []) (b "HTTP/1.1 abc OK" ++ CRLF)
                    (Email.mkMessage None [] [] [])
                    (u "HTTP/1.1 abc OK") (u "abc") (u "OK")
                    ltac:(vm_compute; reflexivity) ltac:(vm_compute; reflexivity)
                    ltac:(vm_compute; reflexivity)))).
    intros H; inversion H as [r G | r G | r G]; subst;
      inversion G as [d Hd | d r' Hd | d r' Hd]; subst;
      vm_compute in Hd; discriminate Hd.
  - apply (proj2 (proj2 (@read_response_status Buffer Buffer_reader
                    (mkBuffer (b "HTTP/1.1 -1 Below" ++ CRLF ++ CRLF))
                    (mkBuffer []) (b "HTTP/1.1 -1 Below" ++ CRLF)
                    (Email.mkMessage None [] [] [])
                    (u "HTTP/1.1 -1 Below") (u "-1") (u "Below")
                    ltac:(vm_compute; reflexivity) ltac:(vm_compute; reflexivity)
                    ltac:(vm_compute; reflexivity)))).
    apply (@numeric_minus (u "1")); split; [discriminate|].
    intros c Hc; vm_compute in Hc; intuition (subst; reflexivity).
Defined.

(** A status field that is not numeric and is no error: "1_0", for which
    [read_response] returns 10, and a status in Arabic-Indic digits, for
    which it returns 101. *)
Lemma status_not_numeric_accepted :
  (~ numeric (u "1_0")
   /\ read_response (mkBuffer (b "HTTP/1.1 1_0 OK" ++ CRLF ++ CRLF))
      = (Ok (10%Z, Email.mkMessage None [] [] []), mkBuffer []))
  /\ (~ numeric [0x661; 0x660; 0x661]%N
      /\ utf8_decode [xd9; xa1; xd9; xa0; xd9; xa1] = Some [0x661; 0x660; 0x661]%N
      /\ read_response
           (mkBuffer (b "HTTP/1.1 " ++ [xd9; xa1; xd9; xa0; xd9; xa1]
                      ++ b " OK" ++ CRLF ++ CRLF))
         = (Ok (101%Z, Email.mkMessage None [] [] []), mkBuffer [])).
Proof.
  assert (D : forall (c : N) (r : str),
             is_digit c = false -> In c r -> ~ all_digits r)
    by (intros c r Hc Hin [_ H]; rewrite (H c Hin) in Hc; discriminate Hc).
  split; split.
  - intros H; inversion H as [r G | r G | r G]; subst.
    apply (D underscore (u "1_0")); [reflexivity | simpl; auto | exact G].
  - vm_compute; reflexivity.
  - intros H; inversion H as [r G | r G | r G]; subst.
    apply (D 0x661%N [0x661; 0x660; 0x661]%N);
      [reflexivity | simpl; auto | exact G].
  - split; vm_compute; reflexivity.
Qed.

Lemma start_line_too_short_witness :
  read_response (mkBuffer (b "HTTP/1.1 200 " ++ CRLF ++ CRLF))
  = (Raise UnpackError, mkBuffer [])
  /\ read_request (mkBuffer (b "GET /" ++ CRLF ++ CRLF))
     = (Raise UnpackError, mkBuffer []).
Proof.
  split.
  - apply (proj1 (@start_line_too_short Buffer Buffer_reader
                    (mkBuffer (b "HTTP/1.1 200 " ++ CRLF ++ CRLF))
                    (mkBuffer []) (b "HTTP/1.1 200 " ++ CRLF)
                    (Email.mkMessage None [] [] []) (u "HTTP/1.1 200 ")
                    ltac:(vm_compute; reflexivity) ltac:(vm_compute; reflexivity))).
    vm_compute; lia.
  - apply (proj1 (@start_line_too_short Buffer Buffer_reader
                    (mkBuffer (b "GET /" ++ CRLF ++ CRLF))
                    (mkBuffer []) (b "GET /" ++ CRLF)
                    (Email.mkMessage None [] [] []) (u "GET /")
                    ltac:(vm_compute; reflexivity) ltac:(vm_compute; reflexivity))).
    vm_compute; lia.
Defined.

(** * Further properties of the readers *)

(** ** What [read_message] reads, and when it fails *)

Section MessageOutcomes.

Context {S : Type} {stream : StreamReader S}.

Lemma next_lines_step (n : nat) (s s1 s2 : S) (line : bytes) (lines : list bytes) :
  readline s = (line, s1) ->
  next_lines n s1 = (lines, s2) ->
  next_lines (Datatypes.S n) s = (line :: lines, s2).
Proof. intros H1 H2; cbn [next_lines]; rewrite H1, H2; reflexivity. Qed.

Lemma next_lines_snd (n : nat) (s : S) :
  snd (next_lines (Datatypes.S n) s) = snd (next_lines n (snd (readline s))).
Proof.
  cbn [next_lines]; destruct (readline s) as [l s1]; cbn [snd].
  destruct (next_lines n s1); reflexivity.
Qed.

Lemma read_line_Raise (s s' : S) (e : error) :
  read_line s = (Raise e, s') ->
  valid_line (fst (readline s)) = false
  /\ e = line_error (fst (readline s)) /\ s' = snd (readline s).
Proof.
  rewrite read_line_cases; unfold valid_line, line_error.
  destruct (Nat.ltb_spec MAX_LINE (length (fst (readline s)))) as [Hlt | Hle].
  - intros H; injection H as <- <-; repeat split.
    apply andb_false_iff; left; apply Nat.leb_gt; exact Hlt.
  - destruct (endswith Byte.eqb (fst (readline s)) CRLF); [discriminate|].
    intros H; injection H as <- <-; repeat split.
    apply andb_false_r.
Qed.

Lemma read_line_invalid (s : S) :
  valid_line (fst (readline s)) = false ->
  read_line s = (Raise (line_error (fst (readline s))), snd (readline s)).
Proof.
  intros H; rewrite read_line_cases; unfold valid_line, line_error in *.
  destruct (Nat.ltb_spec MAX_LINE (length (fst (readline s)))) as [Hlt | Hle];
    [reflexivity|].
  apply andb_false_iff in H as [H | H].
  - apply Nat.leb_gt in H; lia.
  - rewrite H; reflexivity.
Qed.

(** The loop, when it returns: it has read fewer than [n] header lines and
    the blank line, and hands all of them over. *)
Lemma read_headers_Ok (n : nat) :
  forall (buf raw : bytes) (s s' : S),
    read_headers n buf s = (Ok raw, s') ->
    exists hs,
      length hs < n
      /\ next_lines (length hs + 1) s = (hs ++ [CRLF], s')
      /\ forallb header_line_ok hs = true
      /\ raw = buf ++ concat hs ++ CRLF.
Proof.
  induction n as [|n IH]; intros buf raw s s' H; [discriminate H|].
  cbn [read_headers] in H; unfold bind in H.
  destruct (read_line s) as [[line|e] s1] eqn:R; [|discriminate H].
  apply read_line_Ok in R as [R V].
  destruct (bytes_eqb line CRLF) eqn:B.
  - apply bytes_eqb_eq in B; subst line.
    injection H as <- <-; exists []; repeat split; [simpl; lia|].
    cbn [length Nat.add app next_lines]; rewrite R; reflexivity.
  - apply IH in H as (hs & Hlen & Hn & Hok & ->).
    exists (line :: hs); repeat split.
    + simpl; lia.
    + cbn [length Nat.add app]; apply (next_lines_step _ R Hn).
    + cbn [forallb]; unfold header_line_ok at 1; rewrite V, B, Hok; reflexivity.
    + cbn [concat]; rewrite <- !app_assoc; reflexivity.
Qed.

(** The loop, when it raises: the error of a refused line, or "Too many
    headers" after [n] lines that are valid and not blank. *)
Lemma read_headers_Raise (n : nat) :
  forall (buf : bytes) (s s' : S) (e : error),
    read_headers n buf s = (Raise e, s') ->
    exists hs,
      length hs <= n
      /\ forallb header_line_ok hs = true
      /\ ((e = TooManyHeaders /\ length hs = n
           /\ next_lines n s = (hs, s'))
          \/ (exists bad,
                 next_lines (length hs + 1) s = (hs ++ [bad], s')
                 /\ length hs < n
                 /\ valid_line bad = false /\ e = line_error bad)).
Proof.
  induction n as [|n IH]; intros buf s s' e H.
  - injection H as <- <-; exists []; repeat split; auto.
  - cbn [read_headers] in H; unfold bind in H.
    destruct (read_line s) as [[line|e1] s1] eqn:R.
    + apply read_line_Ok in R as [R V].
      destruct (bytes_eqb line CRLF) eqn:B; [discriminate H|].
      apply IH in H as (hs & Hlen & Hok & Hcase).
      exists (line :: hs); repeat split.
      * simpl; lia.
      * cbn [forallb]; unfold header_line_ok at 1; rewrite V, B, Hok; reflexivity.
      * destruct Hcase as [(-> & Hn & Hl) | (bad & Hl & Hlt & Hv & ->)].
        -- left; repeat split; [simpl; lia|].
           apply (next_lines_step _ R Hl).
        -- right; exists bad; repeat split; [|simpl; lia|assumption].
           cbn [length Nat.add app]; apply (next_lines_step _ R Hl).
    + injection H as <- <-.
      apply read_line_Raise in R as (Hv & -> & ->).
      exists []; repeat split; [simpl; lia|].
      right; exists (fst (readline s)); repeat split; [|simpl; lia|assumption].
      cbn [length Nat.add app next_lines].
      destruct (readline s); reflexivity.
Qed.

(** X1.  [read_message] returns a start line and a message exactly when
    the stream gives a valid start line, fewer than 256 valid header lines
    none of which is blank, and the blank line: it stops right after the
    first blank line, and the message is what the parser makes of the
    header lines and the blank line. *)
Theorem read_message_returns
    (s s' : S) (start : bytes) (m : Email.Message) :
  read_message s = (Ok (start, m), s')
  <-> exists hs,
      length hs < 256
      /\ next_lines (length hs + 2) s = (start :: hs ++ [CRLF], s')
      /\ valid_line start = true
      /\ forallb header_line_ok hs = true
      /\ Email.parse (concat hs ++ CRLF) = Ok m.
Proof.
  split.
  - unfold read_message, bind; intros H.
    destruct (read_line s) as [[line|e] s1] eqn:R; [|discriminate H].
    apply read_line_Ok in R as [R V].
    destruct (read_headers MAX_HEADERS [] s1) as [[raw|e] s2] eqn:RH;
      [|discriminate H].
    apply read_headers_Ok in RH as (hs & Hlen & Hn & Hok & ->).
    unfold lift, ret in H; cbn [app] in H.
    destruct (Email.parse (concat hs ++ CRLF)) as [m0|e] eqn:P; [|discriminate H].
    injection H as <- <- <-.
    exists hs; repeat split; auto.
    replace (length hs + 2) with (Datatypes.S (length hs + 1)) by lia.
    apply (next_lines_step _ R Hn).
  - intros (hs & Hlen & Hn & Hstart & Hok & P).
    rewrite (@read_message_terminated S stream s start hs s' Hn Hstart Hok Hlen).
    rewrite P; reflexivity.
Qed.

Lemma read_message_error_cases (s s' : S) (e : error) :
  read_message s = (Raise e, s') ->
  e = LineTooLong \/ e = MissingTerminator \/ e = TooManyHeaders.
Proof.
  assert (L : forall l, line_error l = LineTooLong \/ line_error l = MissingTerminator).
  { intros l; unfold line_error; destruct (MAX_LINE <? length l); auto. }
  unfold read_message, bind; intros H.
  destruct (read_line s) as [[line|e1] s1] eqn:R.
  - destruct (read_headers MAX_HEADERS [] s1) as [[raw|e2] s2] eqn:RH.
    + unfold lift, ret in H.
      destruct (EmailFacts.parse_total raw) as [m P]; rewrite P in H.
      discriminate H.
    + injection H as <- <-.
      apply read_headers_Raise in RH as (hs & _ & _ & [(-> & _) | (bad & _ & _ & _ & ->)]).
      * auto.
      * destruct (L bad) as [-> | ->]; auto.
  - injection H as <- <-.
    apply read_line_Raise in R as (_ & -> & _).
    destruct (L (fst (readline s))) as [-> | ->]; auto.
Qed.

(** X2.  [read_message] raises nothing but "Line too long", "Line without
    CRLF" and "Too many headers": the parser of the header block never
    makes it fail. *)
Theorem read_message_errors (s s' : S) (e : error) :
  read_message s = (Raise e, s') ->
  e = LineTooLong \/ e = MissingTerminator \/ e = TooManyHeaders.
Proof. exact (@read_message_error_cases s s' e). Qed.

(** X3.  "Too many headers" is raised only after 257 lines have been
    read: a valid start line and 256 valid lines none of which is blank. *)
Theorem too_many_headers_only (s s' : S) :
  read_message s = (Raise TooManyHeaders, s') ->
  exists start hs,
    next_lines 257 s = (start :: hs, s')
    /\ valid_line start = true
    /\ forallb header_line_ok hs = true.
Proof.
  assert (L : forall l, line_error l <> TooManyHeaders).
  { intros l; unfold line_error; destruct (MAX_LINE <? length l); discriminate. }
  unfold read_message, bind; intros H.
  destruct (read_line s) as [[line|e1] s1] eqn:R.
  - apply read_line_Ok in R as [R V].
    destruct (read_headers MAX_HEADERS [] s1) as [[raw|e2] s2] eqn:RH.
    + unfold lift, ret in H.
      destruct (EmailFacts.parse_total raw) as [m P]; rewrite P in H.
      discriminate H.
    + injection H as -> <-.
      apply read_headers_Raise in RH
        as (hs & _ & Hok & [(_ & Hlen & Hn) | (bad & _ & _ & _ & E)]).
      * exists line, hs; repeat split; auto.
        apply (next_lines_step _ R Hn).
      * exfalso; exact (L bad (eq_sym E)).
  - injection H as -> <-.
    apply read_line_Raise in R as (_ & E & _).
    exfalso; exact (L _ (eq_sym E)).
Qed.

End MessageOutcomes.

(** ** Failures of the line reader, as the three readers see them *)

Section Propagation.

Context {S : Type} {stream : StreamReader S}.

(** An error of [read_message] is the error of both readers above it. *)
Lemma read_message_Raise (s s' : S) (e : error) :
  read_message s = (Raise e, s') ->
  read_request s = (Raise e, s') /\ read_response s = (Raise e, s').
Proof.
  intros H; unfold read_request, read_response, bind; rewrite H; split; reflexivity.
Qed.

Lemma read_headers_refused (hs : list bytes) :
  forall (n : nat) (buf bad : bytes) (s s' : S),
    next_lines (length hs + 1) s = (hs ++ [bad], s') ->
    forallb header_line_ok hs = true ->
    length hs < n ->
    valid_line bad = false ->
    read_headers n buf s = (Raise (line_error bad), s').
Proof.
  induction hs as [|h hs IH]; intros n buf bad s s' Hn Hok Hlt Hbad;
    (destruct n as [|n]; [simpl in Hlt; lia|]).
  - apply next_lines_cons in Hn as [H1 H2].
    simpl in H2; injection H2 as <-.
    cbn [read_headers]; unfold bind.
    rewrite read_line_invalid; rewrite H1; [reflexivity | assumption].
  - apply next_lines_cons in Hn as [H1 H2].
    simpl in Hok; apply andb_true_iff in Hok as [Hh Hok].
    unfold header_line_ok in Hh; apply andb_true_iff in Hh as [Hv Hb].
    cbn [read_headers]; unfold bind; rewrite read_line_valid; rewrite H1;
      [|assumption].
    apply negb_true_iff in Hb; rewrite Hb.
    apply (IH n (buf ++ h) bad _ s' H2 Hok); [simpl in Hlt; lia | assumption].
Qed.

(** X4.  When the first line is refused (too long, or without CRLF, as the
    empty result of an exhausted stream is), [read_message],
    [read_request] and [read_response] all raise the error of
    [read_line] for that line, and nothing more is read. *)
Theorem first_line_refused (s : S) :
  valid_line (fst (readline s)) = false ->
  read_message s = (Raise (line_error (fst (readline s))), snd (readline s))
  /\ read_request s = (Raise (line_error (fst (readline s))), snd (readline s))
  /\ read_response s = (Raise (line_error (fst (readline s))), snd (readline s)).
Proof.
  intros H.
  assert (Hm : read_message s
               = (Raise (line_error (fst (readline s))), snd (readline s))).
  { unfold read_message, bind; rewrite (@read_line_invalid S stream s H); reflexivity. }
  split; [exact Hm | exact (@read_message_Raise _ _ _ Hm)].
Qed.

(** X5.  When a header line is refused before the blank line and before
    the limit on their number (a stream that ends in the middle of the
    headers gives such a line), the three readers raise the error of
    [read_line] for that line and stop after it. *)
Theorem header_line_refused
    (s : S) (start : bytes) (hs : list bytes) (bad : bytes) (s' : S) :
  next_lines (length hs + 2) s = (start :: hs ++ [bad], s') ->
  valid_line start = true ->
  forallb header_line_ok hs = true ->
  length hs < 256 ->
  valid_line bad = false ->
  read_message s = (Raise (line_error bad), s')
  /\ read_request s = (Raise (line_error bad), s')
  /\ read_response s = (Raise (line_error bad), s').
Proof.
  intros Hn Hstart Hok Hlt Hbad.
  assert (Hm : read_message s = (Raise (line_error bad), s')).
  { replace (length hs + 2) with (Datatypes.S (length hs + 1)) in Hn by lia.
    apply next_lines_cons in Hn as [H1 H2].
    unfold read_message, bind.
    rewrite read_line_valid; rewrite H1; [|assumption].
    rewrite (@read_headers_refused hs MAX_HEADERS [] bad _ s' H2 Hok Hlt Hbad).
    reflexivity. }
  split; [exact Hm | exact (@read_message_Raise _ _ _ Hm)].
Qed.

Lemma read_headers_reads (n : nat) :
  forall (buf : bytes) (s : S),
    exists k, k <= n /\ snd (read_headers n buf s) = snd (next_lines k s).
Proof.
  induction n as [|n IH]; intros buf s; [exists 0; split; [lia | reflexivity]|].
  cbn [read_headers]; unfold bind.
  rewrite read_line_cases.
  destruct (if MAX_LINE <? length (fst (readline s)) then _ else _) as [line|e].
  - destruct (bytes_eqb line CRLF).
    + exists 1; split; [lia|]; rewrite next_lines_snd; reflexivity.
    + destruct (IH (buf ++ line) (snd (readline s))) as (k & Hk & E).
      exists (Datatypes.S k); split; [lia|]; rewrite next_lines_snd; exact E.
  - exists 1; split; [lia|]; rewrite next_lines_snd; reflexivity.
Qed.

(** X6.  Whatever the stream gives and whatever the outcome,
    [read_message] calls [readline] at least once and at most 257 times,
    and [read_request] and [read_response] leave the stream where
    [read_message] leaves it. *)
Theorem reads_bounded (s : S) :
  (exists k, 1 <= k <= 257 /\ snd (read_message s) = snd (next_lines k s))
  /\ snd (read_request s) = snd (read_message s)
  /\ snd (read_response s) = snd (read_message s).
Proof.
  split; [|split].
  - unfold read_message, bind; rewrite read_line_cases.
    destruct (if MAX_LINE <? length (fst (readline s)) then _ else _) as [line|e].
    + destruct (read_headers_reads MAX_HEADERS [] (snd (readline s)))
        as (k & Hk & E).
      exists (Datatypes.S k); split; [unfold MAX_HEADERS in Hk; lia|].
      rewrite next_lines_snd, <- E.
      destruct (read_headers MAX_HEADERS [] (snd (readline s))) as [[raw|e] s2];
        [|reflexivity].
      unfold lift, ret; destruct (Email.parse raw); reflexivity.
    + exists 1; split; [lia|]; rewrite next_lines_snd; reflexivity.
  - unfold read_request, bind, lift.
    destruct (read_message s) as [[[line headers]|e] s1]; [|reflexivity].
    destruct (decode (drop_last2 line)) as [text|e]; [|reflexivity].
    destruct (unpack3 (split_None 2 text)) as [[[method uri] version]|e];
      [|reflexivity].
    destruct (negb (str_eqb method (u "GET"))); [reflexivity|].
    destruct (negb (str_eqb version (u "HTTP/1.1"))); reflexivity.
  - unfold read_response, bind, lift.
    destruct (read_message s) as [[[line headers]|e] s1]; [|reflexivity].
    destruct (decode (drop_last2 line)) as [text|e]; [|reflexivity].
    destruct (unpack3 (split_None 2 text)) as [[[version status] reason]|e];
      [|reflexivity].
    destruct (negb (str_eqb version (u "HTTP/1.1"))); [reflexivity|].
    destruct (to_int status); reflexivity.
Qed.

End Propagation.

(** ** The start line, field by field *)

Module Fields.

Import StartLine.
Local Open Scope N_scope.

Lemma skip_space_head (s : str) (c : N) (r : str) :
  skip_space s = c :: r -> isspace c = false.
Proof.
  induction s as [|x s IH]; [discriminate|].
  cbn [skip_space]; destruct (isspace x) eqn:X; [exact IH|].
  intros H; injection H as -> _; exact X.
Qed.

(** No field of a split is empty. *)
Lemma split_None_nonempty (m : nat) :
  forall (s f : str), In f (split_None m s) -> f <> [].
Proof.
  induction m as [|m IH]; intros s f; cbn [split_None];
    destruct (skip_space s) as [|c r] eqn:E; cbn [In]; try contradiction.
  - intros [<- | F]; [discriminate | destruct F].
  - pose proof (skip_space_head _ E) as Hc.
    cbn [span_word]; rewrite Hc.
    destruct (span_word r) as [w rest]; cbn [In].
    intros [<- | H]; [discriminate | exact (IH rest f H)].
Qed.

Lemma skip_space_run (ws s : str) :
  spaces ws -> skip_space (ws ++ s) = skip_space s.
Proof.
  induction ws as [|c ws IH]; intros H; [reflexivity|].
  cbn [app skip_space]; rewrite (H c) by (left; reflexivity).
  apply IH; intros x Hx; apply H; right; exact Hx.
Qed.

Lemma split_None_run (m : nat) (ws s : str) :
  spaces ws -> split_None m (ws ++ s) = split_None m s.
Proof.
  intros H; destruct m; cbn [split_None]; rewrite skip_space_run by assumption;
    reflexivity.
Qed.

(** Fields between runs of whitespace, and a remainder that starts with a
    visible character. *)
Lemma split_runs (ws0 w1 ws1 w2 ws2 : str) (c : N) (r : str) :
  spaces ws0 -> spaces ws1 -> ws1 <> [] -> spaces ws2 -> ws2 <> [] ->
  word w1 -> word w2 -> isspace c = false ->
  split_None 2 (ws0 ++ w1 ++ ws1 ++ w2 ++ ws2 ++ c :: r) = [w1; w2; c :: r].
Proof.
  intros H0 H1 N1 H2 N2 W1 W2 Hc.
  destruct ws1 as [|sp1 ws1]; [contradiction|].
  destruct ws2 as [|sp2 ws2]; [contradiction|].
  rewrite split_None_run by assumption; cbn [app].
  rewrite split_None_step by (assumption || (apply H1; left; reflexivity)).
  change (sp1 :: ws1 ++ w2 ++ sp2 :: ws2 ++ c :: r)
    with ((sp1 :: ws1) ++ w2 ++ sp2 :: ws2 ++ c :: r).
  rewrite split_None_run by assumption.
  rewrite split_None_step by (assumption || (apply H2; left; reflexivity)).
  change (sp2 :: ws2 ++ c :: r) with ((sp2 :: ws2) ++ c :: r).
  rewrite split_None_run by assumption.
  apply f_equal, f_equal, split_None_last; assumption.
Qed.

Lemma word_GET : word (u "GET").
Proof. split; [discriminate|]; simpl; intuition (subst; reflexivity). Qed.

Lemma word_HTTP11 : word (u "HTTP/1.1").
Proof. split; [discriminate|]; simpl; intuition (subst; reflexivity). Qed.

(** A byte from 0xF5 on is part of no UTF-8 sequence. *)
Lemma utf8_decode_invalid (n : nat) :
  forall (bs : bytes) (c : byte),
    (length bs <= n)%nat -> In c bs -> 0xF5 <= Byte.to_N c ->
    utf8_decode bs = None.
Proof.
  assert (Hcont : forall x c : byte,
             is_cont (Byte.to_N x) = true -> 0xF5 <= Byte.to_N c -> x <> c).
  { intros x c H Hc ->; unfold is_cont in H.
    apply andb_true_iff in H as [_ H]; apply N.leb_le in H; lia. }
  assert (Hrange : forall lo hi (x c : byte),
             in_range lo hi (Byte.to_N x) = true -> hi <= 0xBF ->
             0xF5 <= Byte.to_N c -> x <> c).
  { intros lo hi x c H Hhi Hc ->; unfold in_range in H.
    apply andb_true_iff in H as [_ H]; apply N.leb_le in H; lia. }
  induction n as [|n IH]; intros bs c Hlen Hin Hc.
  - destruct bs; [destruct Hin | simpl in Hlen; lia].
  - destruct bs as [|b0 r0]; [destruct Hin|].
    cbn [utf8_decode].
    destruct (N.ltb_spec (Byte.to_N b0) 128) as [L1 | L1].
    { destruct Hin as [-> | Hin]; [lia|].
      rewrite (IH r0 c) by (simpl in Hlen; lia || assumption); reflexivity. }
    destruct (Byte.to_N b0 <? 194); [reflexivity|].
    destruct (N.ltb_spec (Byte.to_N b0) 224) as [L2 | L2].
    { destruct Hin as [-> | Hin]; [lia|].
      destruct r0 as [|b1 r1]; [reflexivity|].
      destruct (is_cont (Byte.to_N b1)) eqn:C1; [|reflexivity].
      destruct Hin as [E | Hin]; [exfalso; exact (Hcont _ _ C1 Hc E)|].
      rewrite (IH r1 c) by (simpl in Hlen; lia || assumption); reflexivity. }
    destruct (N.ltb_spec (Byte.to_N b0) 240) as [L3 | L3].
    { destruct Hin as [-> | Hin]; [lia|].
      destruct r0 as [|b1 [|b2 r2]]; try reflexivity.
      destruct (in_range _ _ (Byte.to_N b1)) eqn:C1; [|reflexivity].
      destruct (is_cont (Byte.to_N b2)) eqn:C2; [|reflexivity].
      cbn [andb].
      assert (b1 <> c).
      { apply (Hrange _ _ _ _ C1); [|assumption].
        destruct (Byte.to_N b0 =? 237); lia. }
      destruct Hin as [E | [E | Hin]];
        [contradiction | exfalso; exact (Hcont _ _ C2 Hc E)|].
      rewrite (IH r2 c) by (simpl in Hlen; lia || assumption); reflexivity. }
    destruct (N.ltb_spec (Byte.to_N b0) 245) as [L4 | L4]; [|reflexivity].
    destruct Hin as [-> | Hin]; [lia|].
    destruct r0 as [|b1 [|b2 [|b3 r3]]]; try reflexivity.
    destruct (in_range _ _ (Byte.to_N b1)) eqn:C1; [|reflexivity].
    destruct (is_cont (Byte.to_N b2)) eqn:C2; [|reflexivity].
    destruct (is_cont (Byte.to_N b3)) eqn:C3; [|reflexivity].
    cbn [andb].
    assert (b1 <> c).
    { apply (Hrange _ _ _ _ C1); [|assumption].
      destruct (Byte.to_N b0 =? 244); lia. }
    destruct Hin as [E | [E | [E | Hin]]];
      [contradiction | exfalso; exact (Hcont _ _ C2 Hc E)
       | exfalso; exact (Hcont _ _ C3 Hc E) |].
    rewrite (IH r3 c) by (simpl in Hlen; lia || assumption); reflexivity.
Qed.

End Fields.

Section StartLineOutcomes.

Context {S : Type} {stream : StreamReader S}.

Import StartLine.

(** X7.  [read_request] returns [uri] and [headers] exactly when
    [read_message] has returned the headers and a start line that decodes
    and splits into GET, [uri] and HTTP/1.1; the [uri] it returns is never
    empty and holds no whitespace. *)
Theorem read_request_returns
    (s s' : S) (uri : str) (headers : Email.Message) :
  read_request s = (Ok (uri, headers), s')
  <-> exists line text,
      read_message s = (Ok (line, headers), s')
      /\ decode (drop_last2 line) = Ok text
      /\ split_None 2 text = [u "GET"; uri; u "HTTP/1.1"]
      /\ word uri.
Proof.
  split.
  - intros H.
    destruct (read_message s) as [[[line h]|e] s1] eqn:Hm;
      [|destruct (@read_message_Raise S stream s s1 e Hm) as [Hr _];
        rewrite Hr in H; discriminate H].
    rewrite (@read_request_after S stream s s1 line h Hm) in H.
    destruct (decode (drop_last2 line)) as [text|e] eqn:Hd; [|discriminate H].
    cbn [rbind] in H.
    destruct (split_None 2 text) as [|f1 [|f2 [|f3 [|f4 fs]]]] eqn:Hs;
      try discriminate H.
    cbn [unpack3 rbind] in H.
    destruct (str_eqb f1 (u "GET")) eqn:E1; [|discriminate H].
    destruct (str_eqb f3 (u "HTTP/1.1")) eqn:E3; [|discriminate H].
    cbn [negb] in H; injection H as <- <- <-.
    apply str_eqb_eq in E1, E3; subst f1 f3.
    assert (W : word f2).
    { pose proof Hs as Hs'.
      apply split_None_head in Hs' as [_ [rest Hs']].
      symmetry in Hs'; apply split_None_head in Hs' as [W _]; exact W. }
    exists line, text; auto.
  - intros (line & text & Hm & Hd & Hs & _).
    rewrite (@read_request_after S stream s s' line headers Hm), Hd.
    cbn [rbind]; rewrite Hs; reflexivity.
Qed.

(** X8.  [read_response] returns [status] and [headers] exactly when
    [read_message] has returned the headers and a status line that
    decodes and splits into HTTP/1.1, a field of which [status] is the
    integer, and a reason; so it never returns without a reason that is
    not empty. *)
Theorem read_response_returns
    (s s' : S) (status : Z) (headers : Email.Message) :
  read_response s = (Ok (status, headers), s')
  <-> exists line text field reason,
      read_message s = (Ok (line, headers), s')
      /\ decode (drop_last2 line) = Ok text
      /\ split_None 2 text = [u "HTTP/1.1"; field; reason]
      /\ int field = Some status
      /\ word field /\ reason <> [].
Proof.
  split.
  - intros H.
    destruct (read_message s) as [[[line h]|e] s1] eqn:Hm;
      [|destruct (@read_message_Raise S stream s s1 e Hm) as [_ Hr];
        rewrite Hr in H; discriminate H].
    rewrite (@read_response_after S stream s s1 line h Hm) in H.
    destruct (decode (drop_last2 line)) as [text|e] eqn:Hd; [|discriminate H].
    cbn [rbind] in H.
    destruct (split_None 2 text) as [|f1 [|f2 [|f3 [|f4 fs]]]] eqn:Hs;
      try discriminate H.
    cbn [unpack3 rbind] in H.
    destruct (str_eqb f1 (u "HTTP/1.1")) eqn:E1; [|discriminate H].
    cbn [negb] in H; unfold to_int in H.
    destruct (int f2) as [n|] eqn:Hi; [|discriminate H].
    cbn [rbind] in H; injection H as <- <- <-.
    apply str_eqb_eq in E1; subst f1.
    assert (W : word f2).
    { pose proof Hs as Hs'.
      apply split_None_head in Hs' as [_ [rest Hs']].
      symmetry in Hs'; apply split_None_head in Hs' as [W _]; exact W. }
    assert (R : f3 <> []).
    { apply (@Fields.split_None_nonempty 2 text); rewrite Hs; simpl; auto. }
    exists line, text, f2, f3; auto 10.
  - intros (line & text & field & reason & Hm & Hd & Hs & Hi & _).
    rewrite (@read_response_after S stream s s' line headers Hm), Hd.
    cbn [rbind]; rewrite Hs; cbn [unpack3 rbind].
    change (negb (str_eqb (u "HTTP/1.1") (u "HTTP/1.1"))) with false; cbn iota.
    unfold to_int; rewrite Hi; reflexivity.
Qed.

(** X9.  In [read_response] the version is tested before the status is
    converted: with three fields of which the first is not HTTP/1.1, the
    error is "Unsupported HTTP version" whatever the status field is. *)
Theorem read_response_version_first
    (s s' : S) (line : bytes) (headers : Email.Message)
    (text version status reason : str) :
  read_message s = (Ok (line, headers), s') ->
  decode (drop_last2 line) = Ok text ->
  split_None 2 text = [version; status; reason] ->
  version <> u "HTTP/1.1" ->
  read_response s = (Raise UnsupportedVersion, s').
Proof.
  intros Hm Hd Hs Hv.
  rewrite (@read_response_after S stream s s' line headers Hm), Hd.
  cbn [rbind]; rewrite Hs; cbn [unpack3 rbind].
  apply str_eqb_neq in Hv; rewrite Hv; reflexivity.
Qed.

(** X10.  Any whitespace separates the fields of the start line: with
    whitespace, or none, before the first field and runs of whitespace
    between the fields, [read_request] returns the second field of a GET
    line and [read_response] converts the second field of a status
    line. *)
Theorem any_whitespace_separates
    (s s' : S) (line : bytes) (headers : Email.Message)
    (ws0 ws1 field ws2 : str) :
  read_message s = (Ok (line, headers), s') ->
  spaces ws0 -> spaces ws1 -> ws1 <> [] -> spaces ws2 -> ws2 <> [] ->
  word field ->
  (decode (drop_last2 line)
   = Ok (ws0 ++ u "GET" ++ ws1 ++ field ++ ws2 ++ u "HTTP/1.1") ->
   read_request s = (Ok (field, headers), s'))
  /\ (forall c r,
         isspace c = false ->
         decode (drop_last2 line)
         = Ok (ws0 ++ u "HTTP/1.1" ++ ws1 ++ field ++ ws2 ++ c :: r) ->
         read_response s
         = (rbind (to_int field) (fun n => Ok (n, headers)), s')).
Proof.
  intros Hm H0 H1 N1 H2 N2 W; split.
  - intros Hd.
    rewrite (@read_request_after S stream s s' line headers Hm), Hd.
    cbn [rbind].
    change (u "HTTP/1.1") with (72%N :: u "TTP/1.1") at 1.
    rewrite (@Fields.split_runs ws0 (u "GET") ws1 field ws2 72%N (u "TTP/1.1"));
      auto using Fields.word_GET.
  - intros c r Hc Hd.
    rewrite (@read_response_after S stream s s' line headers Hm), Hd.
    cbn [rbind].
    rewrite (@Fields.split_runs ws0 (u "HTTP/1.1") ws1 field ws2 c r);
      auto using Fields.word_HTTP11.
Qed.

(** X11.  The third field is all that is left of the line: when anything
    follows HTTP/1.1 on a GET line, be it a single space,
    [read_request] raises "Unsupported HTTP version". *)
Theorem request_version_trailing
    (s s' : S) (line : bytes) (headers : Email.Message)
    (ws0 ws1 uri ws2 : str) (c : N) (r : str) :
  read_message s = (Ok (line, headers), s') ->
  spaces ws0 -> spaces ws1 -> ws1 <> [] -> spaces ws2 -> ws2 <> [] ->
  word uri ->
  decode (drop_last2 line)
  = Ok (ws0 ++ u "GET" ++ ws1 ++ uri ++ ws2 ++ u "HTTP/1.1" ++ c :: r) ->
  read_request s = (Raise UnsupportedVersion, s').
Proof.
  intros Hm H0 H1 N1 H2 N2 W Hd.
  rewrite (@read_request_after S stream s s' line headers Hm), Hd.
  cbn [rbind].
  change (u "HTTP/1.1" ++ c :: r) with (72%N :: u "TTP/1.1" ++ c :: r).
  rewrite (@Fields.split_runs ws0 (u "GET") ws1 uri ws2 72%N
             (u "TTP/1.1" ++ c :: r)); auto using Fields.word_GET.
Qed.

(** X12.  A start line that holds a byte from 0xF5 to 0xFF is not UTF-8:
    once [read_message] has returned, [read_request] and [read_response]
    raise [UnicodeDecodeError], before any field is looked at. *)
Theorem start_line_not_utf8
    (s s' : S) (line : bytes) (headers : Email.Message) (c : byte) :
  read_message s = (Ok (line, headers), s') ->
  In c (drop_last2 line) ->
  (0xF5 <= Byte.to_N c)%N ->
  read_request s = (Raise UnicodeDecodeError, s')
  /\ read_response s = (Raise UnicodeDecodeError, s').
Proof.
  intros Hm Hin Hc.
  rewrite (@read_request_after S stream s s' line headers Hm).
  rewrite (@read_response_after S stream s s' line headers Hm).
  unfold decode.
  rewrite (@Fields.utf8_decode_invalid (length (drop_last2 line))
             (drop_last2 line) c (le_n _) Hin Hc).
  split; reflexivity.
Qed.

(** X13.  The errors of the two readers: those of [read_message], the
    decoding error, the unpacking error and "Unsupported HTTP version"
    for both, "Unsupported method" for [read_request] only and the error
    of [int] for [read_response] only. *)
Theorem reader_errors (s s' : S) (e : error) :
  (read_request s = (Raise e, s') ->
   In e [LineTooLong; MissingTerminator; TooManyHeaders; UnicodeDecodeError;
         UnpackError; UnsupportedMethod; UnsupportedVersion])
  /\ (read_response s = (Raise e, s') ->
      In e [LineTooLong; MissingTerminator; TooManyHeaders; UnicodeDecodeError;
            UnpackError; UnsupportedVersion; InvalidStatus]).
Proof.
  split; intros H.
  - destruct (read_message s) as [[[line h]|e1] s1] eqn:Hm.
    + rewrite (@read_request_after S stream s s1 line h Hm) in H.
      unfold decode in H.
      destruct (utf8_decode (drop_last2 line)) as [text|];
        [|injection H as <- _; simpl; tauto].
      cbn [rbind] in H.
      destruct (split_None 2 text) as [|f1 [|f2 [|f3 [|f4 fs]]]];
        cbn [unpack3 rbind] in H;
        try (injection H as <- _; simpl; tauto).
      destruct (negb (str_eqb f1 (u "GET")));
        [injection H as <- _; simpl; tauto|].
      destruct (negb (str_eqb f3 (u "HTTP/1.1")));
        [injection H as <- _; simpl; tauto | discriminate H].
    + destruct (@read_message_Raise S stream s s1 e1 Hm) as [Hr _].
      rewrite Hr in H; injection H as <- _.
      destruct (@read_message_error_cases S stream s s1 e1 Hm) as [-> | [-> | ->]];
        simpl; tauto.
  - destruct (read_message s) as [[[line h]|e1] s1] eqn:Hm.
    + rewrite (@read_response_after S stream s s1 line h Hm) in H.
      unfold decode in H.
      destruct (utf8_decode (drop_last2 line)) as [text|];
        [|injection H as <- _; simpl; tauto].
      cbn [rbind] in H.
      destruct (split_None 2 text) as [|f1 [|f2 [|f3 [|f4 fs]]]];
        cbn [unpack3 rbind] in H;
        try (injection H as <- _; simpl; tauto).
      destruct (negb (str_eqb f1 (u "HTTP/1.1")));
        [injection H as <- _; simpl; tauto|].
      unfold to_int in H; destruct (int f2);
        [discriminate H | injection H as <- _; simpl; tauto].
    + destruct (@read_message_Raise S stream s s1 e1 Hm) as [_ Hr].
      rewrite Hr in H; injection H as <- _.
      destruct (@read_message_error_cases S stream s s1 e1 Hm) as [-> | [-> | ->]];
        simpl; tauto.
Qed.

End StartLineOutcomes.

(** ** Continuation lines *)

Module Folding.

Import Email HeaderLines HeaderBlock.
Local Open Scope N_scope.

(** The first line of a header: the pending header is stored and the
    line becomes the pending one. *)
Lemma header_step (h : str * str) (rest : list str) :
  wf_text h ->
  forall lineno nlines lastheader lastvalue cur cur',
    flush lastheader lastvalue cur = Ok cur' ->
    _parse_headers lineno nlines (text_line h :: rest) lastheader lastvalue cur
    = _parse_headers (Datatypes.S lineno) nlines rest (fst h) [text_line h] cur'.
Proof.
  intros (Hne & Hn & Hv) lineno nlines lh lv cur cur' Hf.
  cbn [_parse_headers].
  pose proof (tline_eq h) as E.
  destruct (fst h) as [|c0 n'] eqn:En; [contradiction|].
  cbn [app] in E; rewrite E at 1.
  rewrite (is_ftext_not_wsp c0) by (apply Hn; left; reflexivity).
  rewrite Hf; cbn [rbind].
  assert (Hfrom : startswith N.eqb (text_line h) (u "From ") = false).
  { rewrite tline_eq, En; apply not_From_name; assumption. }
  assert (Hfind : find_colon (text_line h) = Some (Datatypes.S (length n'))).
  { rewrite tline_eq, En; apply (find_colon_name _ Hn). }
  assert (Hfirst : firstn (Datatypes.S (length n')) (text_line h) = c0 :: n').
  { rewrite tline_eq, En.
    change (Datatypes.S (length n')) with (length (c0 :: n')).
    rewrite firstn_app, firstn_all, Nat.sub_diag; simpl.
    rewrite app_nil_r; reflexivity. }
  destruct lh; cbn iota beta; rewrite Hfrom, Hfind, Hfirst; reflexivity.
Qed.

(** The continuation lines join the pending header. *)
Lemma continuation_steps (conts : list str) (rest : list str) :
  Forall (fun c => starts_wsp c = true /\ no_nl c) conts ->
  forall lineno nlines lastheader lastvalue cur,
    lastheader <> [] ->
    _parse_headers lineno nlines (map (fun c => c ++ [10]) conts ++ rest)
      lastheader lastvalue cur
    = _parse_headers (lineno + length conts) nlines rest
        lastheader (lastvalue ++ map (fun c => c ++ [10]) conts) cur.
Proof.
  induction 1 as [|c conts [Hc _] _ IH]; intros lineno nlines lh lv cur Hlh.
  - cbn [map app length]; rewrite Nat.add_0_r, app_nil_r; reflexivity.
  - destruct c as [|c0 c']; [discriminate Hc|].
    cbn [map app _parse_headers]; cbn [starts_wsp] in Hc; rewrite Hc.
    destruct lh as [|x lh]; [contradiction|].
    rewrite IH by discriminate.
    cbn [length]; rewrite Nat.add_succ_r, <- app_assoc; reflexivity.
Qed.

Lemma join_continuations (conts : list str) :
  forall a : str,
    (a ++ [10]) ++ concat (map (fun c => c ++ [10]) conts)
    = (a ++ concat (map (fun c => 10 :: c) conts)) ++ [10].
Proof.
  induction conts as [|c conts IH]; intros a; cbn [map concat].
  - rewrite !app_nil_r; reflexivity.
  - rewrite app_assoc.
    replace ((a ++ [10]) ++ c ++ [10]) with ((a ++ 10 :: c) ++ [10])
      by (rewrite <- !app_assoc; reflexivity).
    rewrite IH, <- !app_assoc; reflexivity.
Qed.

Lemma rstrip_nl_tail (z t : str) :
  no_nl t -> t <> [] -> rstrip is_nl ((z ++ t) ++ [10]) = z ++ t.
Proof.
  intros Ht Hne; unfold rstrip.
  rewrite !rev_app_distr; cbn [rev app lstrip].
  change (is_nl 10) with true; cbn iota.
  destruct (rev t) as [|x t'] eqn:E.
  - apply (f_equal (@rev N)) in E; rewrite rev_involutive in E.
    contradiction.
  - cbn [app lstrip].
    rewrite (Ht x) by (apply in_rev; rewrite E; left; reflexivity).
    change (x :: t' ++ rev z) with ((x :: t') ++ rev z).
    rewrite <- E, <- rev_app_distr, rev_involutive; reflexivity.
Qed.

(** The value of a header with its continuation lines. *)
Lemma folded_value (v : str) (conts : list str) :
  no_nl v ->
  Forall (fun c => starts_wsp c = true /\ no_nl c) conts ->
  rstrip is_nl (lstrip is_wsp (v ++ [10]) ++ concat (map (fun c => c ++ [10]) conts))
  = lstrip is_wsp v ++ concat (map (fun c => 10 :: c) conts).
Proof.
  intros Hv Hc.
  rewrite lstrip_app_stop by reflexivity.
  induction conts as [|ck cs _] using rev_ind.
  - cbn [map concat]; rewrite !app_nil_r.
    rewrite <- (lstrip_app_stop is_wsp v 10 []) by reflexivity.
    rewrite <- (app_nil_r (lstrip is_wsp (v ++ [10]))).
    exact (header_value Hv).
  - apply Forall_app in Hc as [_ Hk]; inversion_clear Hk as [|? ? [Hs Hnl] _].
    rewrite join_continuations, map_app, concat_app; cbn [map concat].
    rewrite app_nil_r.
    rewrite (app_assoc (lstrip is_wsp v)).
    change (10 :: ck) with ([10] ++ ck).
    rewrite (app_assoc _ [10] ck).
    apply rstrip_nl_tail; [assumption|].
    intros ->; discriminate Hs.
Qed.

Lemma flush_folded (n v : str) (conts : list str) (cur : Message) :
  wf_folded (n, v, conts) ->
  flush n (text_line (n, v) :: map (fun c => c ++ [10]) conts) cur
  = Ok (set_raw cur (folded_text_entry (n, v, conts))).
Proof.
  intros [(Hne & Hn & Hv) Hc]; cbn [fst snd] in *.
  unfold flush; destruct n as [|c0 n']; [contradiction|].
  unfold header_source_parse.
  rewrite tline_eq; cbn [fst snd].
  rewrite split_colon_name by assumption.
  rewrite (folded_value Hv Hc); reflexivity.
Qed.

(** Headers with their continuation lines: one entry for each. *)
Lemma _parse_headers_folded (hs : list (str * str * list str)) :
  Forall wf_folded hs ->
  forall lineno nlines lastheader lastvalue cur cur',
    flush lastheader lastvalue cur = Ok cur' ->
    _parse_headers lineno nlines (concat (map folded_text_lines hs))
      lastheader lastvalue cur
    = Ok (add_headers cur' (map folded_text_entry hs), []).
Proof.
  induction 1 as [|[[n v] conts] hs Hh _ IH];
    intros lineno nlines lh lv cur cur' Hf.
  - simpl; rewrite Hf; simpl; rewrite add_headers_nil; reflexivity.
  - pose proof (flush_folded cur' Hh) as Hnext.
    destruct Hh as [Hw Hc].
    cbn [map concat folded_text_lines app].
    rewrite (@header_step (n, v) _ Hw lineno nlines lh lv cur cur' Hf); cbn [fst].
    rewrite (@continuation_steps conts _ Hc)
      by (destruct Hw as [Hne _]; exact Hne).
    cbn [app]; rewrite (IH _ _ _ _ _ _ Hnext).
    unfold add_headers, set_raw; simpl; rewrite <- app_assoc; reflexivity.
Qed.

Lemma headerRE_continuation (c : str) :
  starts_wsp c = true -> headerRE (c ++ [10]) = true.
Proof.
  intros H; destruct c as [|c0 c']; [discriminate H|].
  unfold headerRE; cbn [app starts_wsp] in *; rewrite H, !orb_true_r; reflexivity.
Qed.

Lemma folded_lines_headers (hs : list (str * str * list str)) :
  Forall wf_folded hs ->
  Forall (fun l => headerRE l = true) (concat (map folded_text_lines hs)).
Proof.
  induction 1 as [|[[n v] conts] hs [Hw Hc] _ IH]; [constructor|].
  cbn [map concat folded_text_lines app].
  constructor; [apply headerRE_tline; exact Hw|].
  apply Forall_app; split; [|exact IH].
  clear -Hc; induction Hc as [|c conts [Hs _] _ IH]; constructor;
    auto using headerRE_continuation.
Qed.

Lemma folded_bodies_no_nl (hs : list (str * str * list str)) :
  Forall wf_folded hs -> Forall no_nl (concat (map folded_bodies hs)).
Proof.
  induction 1 as [|[[n v] conts] hs [Hw Hc] _ IH]; [constructor|].
  cbn [map concat folded_bodies app].
  constructor; [apply no_nl_body; exact Hw|].
  apply Forall_app; split; [|exact IH].
  clear -Hc; induction Hc as [|c conts [_ Hn] _ IH]; constructor; auto.
Qed.

Lemma folded_bodies_lines (hs : list (str * str * list str)) :
  map (fun t => t ++ [10]) (concat (map folded_bodies hs))
  = concat (map folded_text_lines hs).
Proof.
  induction hs as [|[[n v] conts] hs IH]; [reflexivity|].
  cbn [map concat folded_bodies folded_text_lines app].
  rewrite map_app; unfold text_line at 1.
  apply f_equal, f_equal; exact IH.
Qed.

Lemma _parsegen_folded (hs : list (str * str * list str)) :
  Forall wf_folded hs ->
  _parsegen (concat (map folded_text_lines hs) ++ [[10]])
  = Ok (mkMessage None (map folded_text_entry hs) [] []).
Proof.
  intros Hwf; unfold _parsegen.
  rewrite header_section_app by (apply folded_lines_headers; exact Hwf).
  change (header_section [[10]]) with (@nil str, @nil str, @nil defect).
  cbn iota beta; rewrite app_nil_r.
  rewrite (@_parse_headers_folded hs Hwf 0 _ [] [] _ (mkMessage None [] [] []));
    reflexivity.
Qed.

Lemma ascii_decode_folded (hs : list (bytes * bytes * list bytes)) (tail : bytes) :
  ascii_decode (concat (concat (map folded_lines hs)) ++ tail)
  = concat (map (fun t => t ++ [13; 10])
              (concat (map folded_bodies (map folded_text hs))))
    ++ ascii_decode tail.
Proof.
  unfold ascii_decode; rewrite map_app; f_equal.
  induction hs as [|[[n v] conts] hs IH]; [reflexivity|].
  cbn [map concat folded_lines folded_text folded_bodies app].
  rewrite !concat_app, !map_app, concat_app, IH.
  f_equal; [|f_equal].
  - unfold header_line, text_body; cbn [fst snd].
    rewrite !map_app, <- !app_assoc; reflexivity.
  - clear; induction conts as [|c conts IH]; [reflexivity|].
    cbn [map concat]; rewrite map_app, IH, map_app; reflexivity.
Qed.

Lemma is_continuation_text (c : bytes) :
  is_continuation c = true ->
  starts_wsp (ascii_decode c) = true /\ no_nl (ascii_decode c).
Proof.
  unfold is_continuation; rewrite andb_true_iff; intros [H1 H2].
  split; [exact H1 | apply is_value_text; exact H2].
Qed.

Lemma folded_ok_wf (h : bytes * bytes * list bytes) :
  folded_ok h = true -> wf_folded (folded_text h).
Proof.
  destruct h as [[n v] conts]; unfold folded_ok, folded_text, wf_folded.
  rewrite !andb_true_iff; intros [[[Hn Hv] Hc] _]; split.
  - apply (@well_formed_wf (n, v)); unfold well_formed; cbn [fst snd].
    rewrite Hn, Hv; reflexivity.
  - rewrite forallb_forall in Hc; apply Forall_forall.
    intros x Hx; apply in_map_iff in Hx as (c & <- & Hin).
    apply is_continuation_text; auto.
Qed.

Lemma folded_entries (hs : list (bytes * bytes * list bytes)) :
  map folded_text_entry (map folded_text hs) = map folded_entry hs.
Proof.
  rewrite map_map; apply map_ext; intros [[n v] conts].
  unfold folded_text, folded_text_entry, folded_entry.
  rewrite map_map; reflexivity.
Qed.

(** The parser on headers with continuation lines and the blank line. *)
Lemma parse_folded_block (hs : list (bytes * bytes * list bytes)) :
  forallb folded_ok hs = true ->
  parse (concat (concat (map folded_lines hs)) ++ CRLF)
  = Ok (close (mkMessage None (map folded_entry hs) [] [])).
Proof.
  intros Hok; unfold parse.
  assert (W : Forall wf_folded (map folded_text hs)).
  { rewrite forallb_forall in Hok; apply Forall_forall.
    intros h Hh; apply in_map_iff in Hh as (h0 & <- & Hh0).
    apply folded_ok_wf; auto. }
  rewrite ascii_decode_folded, lines_of_block by (apply folded_bodies_no_nl; exact W).
  rewrite folded_bodies_lines.
  change (readlines (universal_newlines (ascii_decode CRLF))) with [[10]].
  pose proof (_parsegen_folded W) as P.
  match goal with
  | |- rbind ?x _ = _ =>
    replace x with (Ok (mkMessage None (map folded_text_entry (map folded_text hs)) [] []))
  end.
  cbn [rbind]; rewrite folded_entries; reflexivity.
Qed.

End Folding.

Section FoldedHeaders.

Context {S : Type} {stream : StreamReader S}.

(** X14.  Continuation lines are folded: in a header block where a header
    line may be followed by lines that start with a space or a tab,
    [read_message] returns one entry for each header, whose value is the
    value of the first line without its leading blanks, followed by each
    continuation line after a newline, the blanks that start the line
    included.  The message has no defect but the one that [Email.close]
    adds for a Content-Type of main type multipart. *)
Theorem read_message_folded
    (s : S) (start : bytes) (hs : list (bytes * bytes * list bytes)) (s' : S) :
  let lines := concat (map folded_lines hs) in
  next_lines (length lines + 2) s = (start :: lines ++ [CRLF], s') ->
  valid_line start = true ->
  forallb header_line_ok lines = true ->
  length lines < 256 ->
  forallb folded_ok hs = true ->
  read_message s
  = (Ok (start, Email.close (Email.mkMessage None (map folded_entry hs) [] [])),
     s').
Proof.
  intros lines Hn Hstart Hok Hlt Hwf.
  rewrite (@read_message_terminated S stream s start lines s' Hn Hstart Hok Hlt).
  unfold lines; rewrite (Folding.parse_folded_block _ Hwf); reflexivity.
Qed.

(** X15.  An empty header block is no error: a valid start line followed
    at once by the blank line gives the start line and a message without
    entries. *)
Theorem read_message_no_headers (s : S) (start : bytes) (s' : S) :
  next_lines 2 s = ([start; CRLF], s') ->
  valid_line start = true ->
  read_message s = (Ok (start, Email.mkMessage None [] [] []), s').
Proof.
  intros Hn Hstart.
  rewrite (@read_message_terminated S stream s start [] s' Hn Hstart eq_refl);
    [reflexivity | unfold MAX_HEADERS; simpl; lia].
Qed.

End FoldedHeaders.

(** ** The further properties at concrete streams *)

Lemma read_message_returns_witness :
  read_message sample_request
  = (Ok (request_line (b "/chat?room=1"),
         Email.mkMessage None
           [(u "Host", u "example.com"); (u "Upgrade", u "websocket")] [] []),
     mkBuffer (b "tail")).
Proof.
  apply (proj2 (@read_message_returns Buffer Buffer_reader sample_request
                  (mkBuffer (b "tail")) (request_line (b "/chat?room=1")) _)).
  exists [header_line (b "Host", b " example.com");
          header_line (b "Upgrade", b " websocket")].
  repeat split; vm_compute; (reflexivity || lia).
Defined.

Lemma read_message_errors_witness :
  read_message truncated_request
  = (Raise MissingTerminator, mkBuffer [])
  /\ (MissingTerminator = LineTooLong
      \/ MissingTerminator = MissingTerminator
      \/ MissingTerminator = TooManyHeaders).
Proof.
  assert (H : read_message truncated_request
              = (Raise MissingTerminator, mkBuffer []))
    by (vm_compute; reflexivity).
  split; [exact H|].
  exact (@read_message_errors Buffer Buffer_reader truncated_request
           (mkBuffer []) MissingTerminator H).
Defined.

Lemma too_many_headers_only_witness :
  exists start hs,
    next_lines 257 block_of_256 = (start :: hs, mkBuffer CRLF)
    /\ valid_line start = true
    /\ forallb header_line_ok hs = true.
Proof.
  apply (@too_many_headers_only Buffer Buffer_reader block_of_256 (mkBuffer CRLF)).
  vm_compute; reflexivity.
Defined.

Lemma first_line_refused_witness :
  read_message (mkBuffer []) = (Raise MissingTerminator, mkBuffer [])
  /\ read_request (mkBuffer []) = (Raise MissingTerminator, mkBuffer [])
  /\ read_response (mkBuffer []) = (Raise MissingTerminator, mkBuffer []).
Proof.
  apply (@first_line_refused Buffer Buffer_reader (mkBuffer [])).
  vm_compute; reflexivity.
Defined.

Lemma header_line_refused_witness :
  read_message truncated_request = (Raise MissingTerminator, mkBuffer [])
  /\ read_request truncated_request = (Raise MissingTerminator, mkBuffer [])
  /\ read_response truncated_request = (Raise MissingTerminator, mkBuffer []).
Proof.
  apply (@header_line_refused Buffer Buffer_reader truncated_request
           (request_line (b "/")) [header_line (b "Host", b " example.com")]
           (b "Upgrade: webso") (mkBuffer []));
    vm_compute; (reflexivity || lia).
Defined.

Lemma read_request_returns_witness :
  exists line text,
    read_message sample_request
    = (Ok (line, Email.mkMessage None
                   [(u "Host", u "example.com"); (u "Upgrade", u "websocket")]
                   [] []),
       mkBuffer (b "tail"))
    /\ decode (drop_last2 line) = Ok text
    /\ split_None 2 text = [u "GET"; u "/chat?room=1"; u "HTTP/1.1"]
    /\ word (u "/chat?room=1").
Proof.
  apply (proj1 (@read_request_returns Buffer Buffer_reader sample_request
                  (mkBuffer (b "tail")) (u "/chat?room=1") _)).
  vm_compute; reflexivity.
Defined.

Lemma read_response_returns_witness :
  exists line text field reason,
    read_message sample_response
    = (Ok (line, Email.mkMessage None [(u "Upgrade", u "websocket")] [] []),
       mkBuffer [])
    /\ decode (drop_last2 line) = Ok text
    /\ split_None 2 text = [u "HTTP/1.1"; field; reason]
    /\ int field = Some 101%Z
    /\ word field /\ reason <> [].
Proof.
  apply (proj1 (@read_response_returns Buffer Buffer_reader sample_response
                  (mkBuffer []) 101%Z _)).
  vm_compute; reflexivity.
Defined.

Lemma read_response_version_first_witness :
  read_response old_response = (Raise UnsupportedVersion, mkBuffer []).
Proof.
  apply (@read_response_version_first Buffer Buffer_reader old_response
           (mkBuffer []) (b "HTTP/1.0 abc Nothing" ++ CRLF)
           (Email.mkMessage None [] [] [])
           (u "HTTP/1.0 abc Nothing") (u "HTTP/1.0") (u "abc") (u "Nothing"));
    try (vm_compute; reflexivity).
  discriminate.
Defined.

Lemma any_whitespace_separates_witness :
  read_request spaced_request
  = (Ok (u "/chat", Email.mkMessage None [] [] []), mkBuffer []).
Proof.
  apply (proj1 (@any_whitespace_separates Buffer Buffer_reader spaced_request
                  (mkBuffer []) (b "  GET" ++ [x09] ++ b "/chat   HTTP/1.1" ++ CRLF)
                  (Email.mkMessage None [] [] [])
                  (u "  ") [9%N] (u "/chat") (u "   ")
                  ltac:(vm_compute; reflexivity)
                  ltac:(intros c Hc; vm_compute in Hc;
                        intuition (subst; reflexivity))
                  ltac:(intros c Hc; vm_compute in Hc;
                        intuition (subst; reflexivity))
                  ltac:(discriminate)
                  ltac:(intros c Hc; vm_compute in Hc;
                        intuition (subst; reflexivity))
                  ltac:(discriminate)
                  ltac:(split; [discriminate|]; intros c Hc; vm_compute in Hc;
                        intuition (subst; reflexivity)))).
  vm_compute; reflexivity.
Defined.

Lemma request_version_trailing_witness :
  read_request trailing_space_request = (Raise UnsupportedVersion, mkBuffer []).
Proof.
  apply (@request_version_trailing Buffer Buffer_reader trailing_space_request
           (mkBuffer []) (b "GET /chat HTTP/1.1 " ++ CRLF)
           (Email.mkMessage None [] [] [])
           [] (u " ") (u "/chat") (u " ") 32%N []);
    try (vm_compute; reflexivity); try discriminate;
    try (intros c Hc; vm_compute in Hc; intuition (subst; reflexivity)).
  split; [discriminate|].
  intros c Hc; vm_compute in Hc; intuition (subst; reflexivity).
Defined.

Lemma start_line_not_utf8_witness :
  read_request binary_request = (Raise UnicodeDecodeError, mkBuffer [])
  /\ read_response binary_request = (Raise UnicodeDecodeError, mkBuffer []).
Proof.
  apply (@start_line_not_utf8 Buffer Buffer_reader binary_request (mkBuffer [])
           (b "GET /" ++ [xff] ++ b " HTTP/1.1" ++ CRLF)
           (Email.mkMessage None [] [] []) xff).
  - vm_compute; reflexivity.
  - vm_compute; tauto.
  - vm_compute; discriminate.
Defined.

Lemma reader_errors_witness :
  In UnsupportedVersion
     [LineTooLong; MissingTerminator; TooManyHeaders; UnicodeDecodeError;
      UnpackError; UnsupportedVersion; InvalidStatus].
Proof.
  apply (proj2 (@reader_errors Buffer Buffer_reader old_response (mkBuffer [])
                  UnsupportedVersion)).
  vm_compute; reflexivity.
Defined.

Lemma read_message_folded_witness :
  read_message folded_request
  = (Ok (request_line (b "/"),
         Email.mkMessage None
           [(u "Subject", u "hello" ++ [10%N] ++ u "  world");
            (u "Host", u "example.com")] [] []),
     mkBuffer []).
Proof.
  apply (@read_message_folded Buffer Buffer_reader folded_request
           (request_line (b "/"))
           [(b "Subject", b " hello", [b "  world"]);
            (b "Host", b " example.com", [])]
           (mkBuffer []));
    vm_compute; (reflexivity || lia).
Defined.

Lemma read_message_no_headers_witness :
  read_message (mkBuffer (request_line (b "/") ++ CRLF ++ b "next"))
  = (Ok (request_line (b "/"), Email.mkMessage None [] [] []),
     mkBuffer (b "next")).
Proof.
  apply (@read_message_no_headers Buffer Buffer_reader
           (mkBuffer (request_line (b "/") ++ CRLF ++ b "next"))
           (request_line (b "/")) (mkBuffer (b "next")));
    vm_compute; reflexivity.
Defined.
